(** * Agents & Tasks API: authorization and execution lifecycle

    A shallow embedding of the service layer of [python_api/app]:
    the token service ([services/auth_service.py]), the authentication
    gate ([dependencies.py]), the agent, task and execution services
    ([services/*.py]) and the routers' status codes ([routers/*.py]).

    Conventions of the embedding.
    - The database is an explicit value [DB] threaded through every
      operation.  A table with an integer primary key is a finite map
      from that key to the remaining columns; the [users] table is
      indexed by its [unique=True] column [username], the only column
      the code ever looks a user up by.
    - [raise HTTPException(...)] is the [Raise] branch of [outcome].
    - [datetime.utcnow()] is an explicit argument [now], counted in
      whole seconds, the unit in which a token carries its [exp] claim.
    - [asyncio.create_task(...)] appends to the list of pending
      coroutines of the event loop; the loop later resumes any one of
      them ([Loop.Resume]).
    - A request is served in one step of the loop ([Loop.step]): the
      suspension points inside one handler, where another request could
      run between a lookup and the save that follows it, are not
      modelled.  Statements over traces are about requests served one
      after another.
    - The ORM's creates and saves are modelled on strings that fit
      their columns ([CharField(max_length=255)] for [Agent.name] and
      [Task.title], 50 for [Task.status]); a theorem about data that
      comes from a request states the bound it needs. *)

From stdpp Require Import base option numbers list gmap sets strings.
From Stdlib Require Import ZArith DecimalString.
From Stdlib Require PrimFloat FloatOps SpecFloat.

(* ===================================================================== *)
(** ** HTTP outcomes *)
(* ===================================================================== *)

(** The exceptions the code raises or catches: FastAPI's
    [HTTPException] and the [RequestValidationError] of a body that
    fails its schema, python-jose's [JWTError] (with its message, which
    [verify_token] copies into the response) and Tortoise's
    [DoesNotExist]. *)
Inductive exception : Type :=
| HTTPException (status_code : Z) (detail : string)
                (headers : list (string * string))
| RequestValidationError (message : string)
| JWTError (message : string)
| DoesNotExist.

Inductive outcome (A : Type) : Type :=
| Return (a : A)
| Raise (e : exception).
Arguments Return {A} a.
Arguments Raise {A} e.

Module status.
Definition HTTP_200_OK : Z := 200.
Definition HTTP_201_CREATED : Z := 201.
Definition HTTP_204_NO_CONTENT : Z := 204.
Definition HTTP_400_BAD_REQUEST : Z := 400.
Definition HTTP_401_UNAUTHORIZED : Z := 401.
Definition HTTP_404_NOT_FOUND : Z := 404.
End status.

(** [str(n)] for a Python [int]. *)
Definition str (n : Z) : string := NilZero.string_of_int (Z.to_int n).

(* ===================================================================== *)
(** ** Models ([app/models]) *)
(* ===================================================================== *)

Module User.
Record t := {
  email : string;
  hashed_password : string;
  is_active : bool;
  deleted_at : option Z;
}.
End User.

Module Agent.
Record t := {
  name : string;
  description : string;
  created_at : Z;
  updated_at : Z;
  deleted_at : option Z;
}.
End Agent.

Module Task.
Record t := {
  title : string;
  description : string;
  status : string;
  created_at : Z;
  updated_at : Z;
  deleted_at : option Z;
}.
End Task.

Module Execution.
Record t := {
  task_id : Z;
  agent_id : Z;
  status : string;
  started_at : Z;
  completed_at : option Z;
  result : option string;
  error_message : option string;
  created_at : Z;
  updated_at : Z;
}.
End Execution.

(** The store.  [task_agents] is the junction table with its
    [unique_together = (task, agent)] constraint: a set of pairs.
    The three [*_seq] fields are the auto-increment counters of the
    primary keys. *)
Record DB := {
  users : gmap string User.t;
  agents : gmap Z Agent.t;
  tasks : gmap Z Task.t;
  task_agents : gset (Z * Z);
  executions : gmap Z Execution.t;
  agent_seq : Z;
  task_seq : Z;
  execution_seq : Z;
}.

Definition set_agents (f : gmap Z Agent.t → gmap Z Agent.t) (db : DB) : DB :=
  {| users := users db; agents := f (agents db); tasks := tasks db;
     task_agents := task_agents db; executions := executions db;
     agent_seq := agent_seq db; task_seq := task_seq db;
     execution_seq := execution_seq db |}.

Definition set_tasks (f : gmap Z Task.t → gmap Z Task.t) (db : DB) : DB :=
  {| users := users db; agents := agents db; tasks := f (tasks db);
     task_agents := task_agents db; executions := executions db;
     agent_seq := agent_seq db; task_seq := task_seq db;
     execution_seq := execution_seq db |}.

Definition set_task_agents (f : gset (Z * Z) → gset (Z * Z)) (db : DB) : DB :=
  {| users := users db; agents := agents db; tasks := tasks db;
     task_agents := f (task_agents db); executions := executions db;
     agent_seq := agent_seq db; task_seq := task_seq db;
     execution_seq := execution_seq db |}.

Definition set_executions (f : gmap Z Execution.t → gmap Z Execution.t) (db : DB) : DB :=
  {| users := users db; agents := agents db; tasks := tasks db;
     task_agents := task_agents db; executions := f (executions db);
     agent_seq := agent_seq db; task_seq := task_seq db;
     execution_seq := execution_seq db |}.

(** *** Queries of the ORM used by the services *)

(** [Agent.filter(id=i, deleted_at__isnull=True).first()] *)
Definition Agent_filter_first (db : DB) (i : Z) : option Agent.t :=
  match agents db !! i with
  | Some a => if Agent.deleted_at a is None then Some a else None
  | None => None
  end.

(** [Task.filter(id=i, deleted_at__isnull=True).first()] *)
Definition Task_filter_first (db : DB) (i : Z) : option Task.t :=
  match tasks db !! i with
  | Some t => if Task.deleted_at t is None then Some t else None
  | None => None
  end.

(** [Agent.filter(id__in=ids, deleted_at__isnull=True)] *)
Definition Agent_filter_in_live (db : DB) (ids : list Z) : gmap Z Agent.t :=
  filter (λ kv, kv.1 ∈ ids ∧ Agent.deleted_at kv.2 = None) (agents db).

(** [Agent.filter(id__in=ids)] *)
Definition Agent_filter_in (db : DB) (ids : list Z) : gmap Z Agent.t :=
  filter (λ kv, kv.1 ∈ ids) (agents db).

(** [Agent.create(name=.., description=..)], for a [name] that fits
    its column of 255 characters (a longer one is refused by the
    column's validator, which is not modelled). *)
Definition Agent_create (now : Z) (name description : string) (db : DB)
  : Z * DB :=
  let i := agent_seq db in
  let row := {| Agent.name := name; Agent.description := description;
                Agent.created_at := now; Agent.updated_at := now;
                Agent.deleted_at := None |} in
  (i, {| users := users db; agents := <[i := row]> (agents db);
         tasks := tasks db; task_agents := task_agents db;
         executions := executions db; agent_seq := i + 1;
         task_seq := task_seq db; execution_seq := execution_seq db |}).

(** [agent.save()]: the row with primary key [i] is written back;
    [updated_at] is an [auto_now] column.  As for [Agent_create], the
    name is taken to fit its column. *)
Definition Agent_save (now : Z) (i : Z) (a : Agent.t) (db : DB) : DB :=
  let row := {| Agent.name := Agent.name a;
                Agent.description := Agent.description a;
                Agent.created_at := Agent.created_at a;
                Agent.updated_at := now;
                Agent.deleted_at := Agent.deleted_at a |} in
  set_agents (insert i row) db.

(** [Task.create(title=.., description=..)]; [status] defaults to
    ["pending"].  The [title] is taken to fit its column of 255
    characters (a longer one is refused by the column's validator,
    which is not modelled). *)
Definition Task_create (now : Z) (title description : string) (db : DB)
  : Z * DB :=
  let i := task_seq db in
  let row := {| Task.title := title; Task.description := description;
                Task.status := "pending";
                Task.created_at := now; Task.updated_at := now;
                Task.deleted_at := None |} in
  (i, {| users := users db; agents := agents db;
         tasks := <[i := row]> (tasks db); task_agents := task_agents db;
         executions := executions db; agent_seq := agent_seq db;
         task_seq := i + 1; execution_seq := execution_seq db |}).

(** [task.save()], for a title and a status that fit their columns
    of 255 and 50 characters. *)
Definition Task_save (now : Z) (i : Z) (t : Task.t) (db : DB) : DB :=
  let row := {| Task.title := Task.title t;
                Task.description := Task.description t;
                Task.status := Task.status t;
                Task.created_at := Task.created_at t;
                Task.updated_at := now;
                Task.deleted_at := Task.deleted_at t |} in
  set_tasks (insert i row) db.

(** [task.agents.add] of the agents [ags]: one junction row per agent,
    the unique pairing kept. *)
Definition Task_agents_add (tid : Z) (ags : gmap Z Agent.t) (db : DB) : DB :=
  set_task_agents
    (λ s, s ∪ set_map (D := gset (Z * Z)) (λ k, (tid, k)) (dom ags)) db.

(** [task.agents.clear()] *)
Definition Task_agents_clear (tid : Z) (db : DB) : DB :=
  set_task_agents (filter (λ p, p.1 ≠ tid)) db.

(** [task.agents.all()]: the agents joined to the task through the
    junction table (soft-deleted ones included: the relation carries no
    filter). *)
Definition Task_agents_all (tid : Z) (db : DB) : gmap Z Agent.t :=
  filter (λ kv, (tid, kv.1) ∈ task_agents db) (agents db).

(** [[a.id for a in ags]] *)
Definition ids_of {A} (rows : gmap Z A) : list Z := (map_to_list rows).*1.

(** [Execution.create(task_id=.., agent_id=.., status="running")];
    [started_at] and [created_at] are [auto_now_add] columns, the
    nullable columns default to [None]. *)
Definition Execution_create (now : Z) (task_id agent_id : Z) (st : string)
    (db : DB) : Z * DB :=
  let i := execution_seq db in
  let row := {| Execution.task_id := task_id; Execution.agent_id := agent_id;
                Execution.status := st; Execution.started_at := now;
                Execution.completed_at := None; Execution.result := None;
                Execution.error_message := None;
                Execution.created_at := now; Execution.updated_at := now |} in
  (i, {| users := users db; agents := agents db; tasks := tasks db;
         task_agents := task_agents db;
         executions := <[i := row]> (executions db);
         agent_seq := agent_seq db; task_seq := task_seq db;
         execution_seq := i + 1 |}).

(** [execution.save()] *)
Definition Execution_save (now : Z) (i : Z) (e : Execution.t) (db : DB) : DB :=
  let row := {| Execution.task_id := Execution.task_id e;
                Execution.agent_id := Execution.agent_id e;
                Execution.status := Execution.status e;
                Execution.started_at := Execution.started_at e;
                Execution.completed_at := Execution.completed_at e;
                Execution.result := Execution.result e;
                Execution.error_message := Execution.error_message e;
                Execution.created_at := Execution.created_at e;
                Execution.updated_at := now |} in
  set_executions (insert i row) db.

(* ===================================================================== *)
(** ** The service monad *)
(* ===================================================================== *)

(** A coroutine created by [asyncio.create_task] and not yet run to its
    end: [_simulate_execution(execution_id)], asleep since
    [spawned_at]. *)
Record Coroutine := {
  execution_id : Z;
  spawned_at : Z;
}.

(** The state of the process: the store and the event loop's pending
    coroutines. *)
Record State := {
  store : DB;
  loop : list Coroutine;
}.

(** Service code runs against the state and may raise.  A raised
    exception leaves the state as it is at the point of the [raise]. *)
Definition M (A : Type) : Type := State → outcome A * State.

Definition ret {A} (a : A) : M A := λ st, (Return a, st).
Definition raise {A} (e : exception) : M A := λ st, (Raise e, st).
Definition bind {A B} (m : M A) (k : A → M B) : M B :=
  λ st, match m st with
        | (Return a, st') => k a st'
        | (Raise e, st') => (Raise e, st')
        end.
(** [try: m  except: h] *)
Definition try_except {A} (m : M A) (h : exception → M A) : M A :=
  λ st, match m st with
        | (Return a, st') => (Return a, st')
        | (Raise e, st') => h e st'
        end.
(** the value or the exception of a pure library call *)
Definition lift {A} (r : outcome A) : M A := λ st, (r, st).
(** a read query *)
Definition query {A} (q : DB → A) : M A := λ st, (Return (q (store st)), st).
(** a write *)
Definition exec (w : DB → DB) : M unit :=
  λ st, (Return tt, {| store := w (store st); loop := loop st |}).
(** an insert that yields the generated primary key *)
Definition create (c : DB → Z * DB) : M Z :=
  λ st, let '(i, db') := c (store st) in
        (Return i, {| store := db'; loop := loop st |}).
(** [asyncio.create_task(c)] *)
Definition create_task_on_loop (c : Coroutine) : M unit :=
  λ st, (Return tt, {| store := store st; loop := loop st ++ [c] |}).

Notation "'let!' x := m 'in' k" := (bind m (λ x, k))
  (at level 10, x pattern, m at level 100, k at level 200).
Notation "m ;; k" := (bind m (λ _, k))
  (at level 100, k at level 200, right associativity).

(* ===================================================================== *)
(** ** Request schemas ([app/schemas]) *)
(* ===================================================================== *)

Module AgentCreate.
Record t := { name : string; description : string }.
End AgentCreate.

(** An [Optional] field of an update schema is [None] when the request
    leaves it unset, and the value it sets otherwise.  A request that
    sets a field to an explicit [null] is outside these types (there
    [update_from_dict] raises on the non-nullable column). *)
Module AgentUpdate.
Record t := { name : option string; description : option string }.
End AgentUpdate.

Module TaskCreate.
Record t := {
  title : string;
  description : string;
  supported_agent_ids : list Z;
}.
(** [Field(..., min_items=1)] *)
Definition validate (d : t) : bool :=
  bool_decide (1 ≤ length (supported_agent_ids d)).
End TaskCreate.

Module TaskUpdate.
Record t := {
  title : option string;
  description : option string;
  supported_agent_ids : option (list Z);
  status : option string;
}.
End TaskUpdate.

Module ExecutionCreate.
Record t := { task_id : Z; agent_id : Z }.
End ExecutionCreate.

Module LoginRequest.
Record t := { username : string; password : string }.
End LoginRequest.

(* ===================================================================== *)
(** ** [services/agent_service.py] *)
(* ===================================================================== *)

Module AgentService.

Definition get_all_agents : M (gmap Z Agent.t) :=
  query (λ db, filter (λ kv, Agent.deleted_at kv.2 = None) (agents db)).

Definition get_agent_by_id (agent_id : Z) : M Agent.t :=
  let! agent := query (λ db, Agent_filter_first db agent_id) in
  match agent with
  | None =>
      raise (HTTPException status.HTTP_404_NOT_FOUND
               ("Agent with id " +:+ str agent_id +:+ " not found") [])
  | Some agent => ret agent
  end.

Definition create_agent (now : Z) (agent_data : AgentCreate.t) : M Z :=
  let! agent := create (Agent_create now (AgentCreate.name agent_data)
                          (AgentCreate.description agent_data)) in
  ret agent.

(** [agent.update_from_dict(agent_data.model_dump(exclude_unset=True))] *)
Definition update_from_dict (agent : Agent.t) (d : AgentUpdate.t) : Agent.t :=
  {| Agent.name := default (Agent.name agent) (AgentUpdate.name d);
     Agent.description :=
       default (Agent.description agent) (AgentUpdate.description d);
     Agent.created_at := Agent.created_at agent;
     Agent.updated_at := Agent.updated_at agent;
     Agent.deleted_at := Agent.deleted_at agent |}.

(** The object after [save()]: the [auto_now] column has been set on
    it too. *)
Definition saved (now : Z) (agent : Agent.t) : Agent.t :=
  {| Agent.name := Agent.name agent;
     Agent.description := Agent.description agent;
     Agent.created_at := Agent.created_at agent;
     Agent.updated_at := now;
     Agent.deleted_at := Agent.deleted_at agent |}.

Definition update_agent (now : Z) (agent_id : Z) (agent_data : AgentUpdate.t)
  : M Agent.t :=
  let! agent := get_agent_by_id agent_id in
  if bool_decide (is_Some (AgentUpdate.name agent_data)
                  ∨ is_Some (AgentUpdate.description agent_data))
  then
    let agent := update_from_dict agent agent_data in
    exec (Agent_save now agent_id agent) ;;
    ret (saved now agent)
  else ret agent.

Definition delete_agent (now : Z) (agent_id : Z) : M unit :=
  let! agent := get_agent_by_id agent_id in
  let agent := {| Agent.name := Agent.name agent;
                  Agent.description := Agent.description agent;
                  Agent.created_at := Agent.created_at agent;
                  Agent.updated_at := Agent.updated_at agent;
                  Agent.deleted_at := Some now |} in
  exec (Agent_save now agent_id agent).

Definition verify_agents_exist (agent_ids : list Z) : M bool :=
  let! count := query (λ db, size (Agent_filter_in_live db agent_ids)) in
  ret (bool_decide (count = length agent_ids)).

End AgentService.

(* ===================================================================== *)
(** ** [services/task_service.py] *)
(* ===================================================================== *)

Module TaskService.

Definition get_all_tasks : M (gmap Z Task.t) :=
  query (λ db, filter (λ kv, Task.deleted_at kv.2 = None) (tasks db)).

Definition get_task_by_id (task_id : Z) : M Task.t :=
  let! task := query (λ db, Task_filter_first db task_id) in
  match task with
  | None =>
      raise (HTTPException status.HTTP_404_NOT_FOUND
               ("Task with id " +:+ str task_id +:+ " not found") [])
  | Some task => ret task
  end.

(** The task is returned as its primary key together with the ids of
    the agents [fetch_related("agents")] loads. *)
Definition create_task (now : Z) (task_data : TaskCreate.t)
  : M (Z * list Z) :=
  let! ok := AgentService.verify_agents_exist
               (TaskCreate.supported_agent_ids task_data) in
  if negb ok then
    raise (HTTPException status.HTTP_400_BAD_REQUEST
             "One or more agent IDs do not exist" [])
  else
    let! task := create (Task_create now (TaskCreate.title task_data)
                           (TaskCreate.description task_data)) in
    let! agents := query (λ db, Agent_filter_in db
                            (TaskCreate.supported_agent_ids task_data)) in
    exec (Task_agents_add task agents) ;;
    let! fetched := query (Task_agents_all task) in
    ret (task, ids_of fetched).

(** [task.update_from_dict(task_data.model_dump(
      exclude={"supported_agent_ids"}, exclude_unset=True))] *)
Definition update_from_dict (task : Task.t) (d : TaskUpdate.t) : Task.t :=
  {| Task.title := default (Task.title task) (TaskUpdate.title d);
     Task.description :=
       default (Task.description task) (TaskUpdate.description d);
     Task.status := default (Task.status task) (TaskUpdate.status d);
     Task.created_at := Task.created_at task;
     Task.updated_at := Task.updated_at task;
     Task.deleted_at := Task.deleted_at task |}.

Definition update_task (now : Z) (task_id : Z) (task_data : TaskUpdate.t)
  : M (Z * list Z) :=
  let! task := get_task_by_id task_id in
  match TaskUpdate.supported_agent_ids task_data with
  | Some ids =>
      let! ok := AgentService.verify_agents_exist ids in
      if negb ok then
        raise (HTTPException status.HTTP_400_BAD_REQUEST
                 "One or more agent IDs do not exist" [])
      else
        exec (Task_agents_clear task_id) ;;
        let! agents := query (λ db, Agent_filter_in db ids) in
        exec (Task_agents_add task_id agents)
  | None => ret tt
  end ;;
  (if bool_decide (is_Some (TaskUpdate.title task_data)
                   ∨ is_Some (TaskUpdate.description task_data)
                   ∨ is_Some (TaskUpdate.status task_data))
   then exec (Task_save now task_id (update_from_dict task task_data))
   else ret tt) ;;
  let! fetched := query (Task_agents_all task_id) in
  ret (task_id, ids_of fetched).

Definition delete_task (now : Z) (task_id : Z) : M unit :=
  let! task := get_task_by_id task_id in
  let task := {| Task.title := Task.title task;
                 Task.description := Task.description task;
                 Task.status := Task.status task;
                 Task.created_at := Task.created_at task;
                 Task.updated_at := Task.updated_at task;
                 Task.deleted_at := Some now |} in
  exec (Task_save now task_id task).

End TaskService.

(* ===================================================================== *)
(** ** [services/execution_service.py] *)
(* ===================================================================== *)

Module ExecutionService.

Definition create_execution (now : Z) (execution_data : ExecutionCreate.t)
  : M Z :=
  let task_id := ExecutionCreate.task_id execution_data in
  let agent_id := ExecutionCreate.agent_id execution_data in
  let! task := query (λ db, Task_filter_first db task_id) in
  match task with
  | None =>
      raise (HTTPException status.HTTP_404_NOT_FOUND
               ("Task with id " +:+ str task_id +:+ " not found") [])
  | Some _ =>
      let! agent := query (λ db, Agent_filter_first db agent_id) in
      match agent with
      | None =>
          raise (HTTPException status.HTTP_404_NOT_FOUND
                   ("Agent with id " +:+ str agent_id +:+ " not found") [])
      | Some _ =>
          let! agent_ids := query (λ db, ids_of (Task_agents_all task_id db)) in
          if bool_decide (agent_id ∉ agent_ids) then
            raise (HTTPException status.HTTP_400_BAD_REQUEST
                     ("Agent " +:+ str agent_id
                      +:+ " is not authorized to run task " +:+ str task_id)
                     [])
          else
            let! execution :=
              create (Execution_create now task_id agent_id "running") in
            create_task_on_loop
              {| execution_id := execution; spawned_at := now |} ;;
            ret execution
      end
  end.

Definition get_all_executions : M (gmap Z Execution.t) :=
  query executions.

Definition get_running_executions : M (gmap Z Execution.t) :=
  query (λ db, filter (λ kv, Execution.status kv.2 = "running")
                 (executions db)).

Definition get_execution_by_id (execution_id : Z) : M Execution.t :=
  let! execution := query (λ db, executions db !! execution_id) in
  match execution with
  | None =>
      raise (HTTPException status.HTTP_404_NOT_FOUND
               ("Execution with id " +:+ str execution_id +:+ " not found")
               [])
  | Some execution => ret execution
  end.

(** The part of [_simulate_execution] after [await asyncio.sleep(5)].
    [Execution.get] raises [DoesNotExist] when no row has the id. *)
Definition _simulate_execution (now : Z) (execution_id : Z) : M unit :=
  let! execution := query (λ db, executions db !! execution_id) in
  match execution with
  | None => raise DoesNotExist
  | Some execution =>
      let execution :=
        {| Execution.task_id := Execution.task_id execution;
           Execution.agent_id := Execution.agent_id execution;
           Execution.status := "completed";
           Execution.started_at := Execution.started_at execution;
           Execution.completed_at := Some now;
           Execution.result :=
             Some ("Task " +:+ str (Execution.task_id execution)
                   +:+ " completed successfully by agent "
                   +:+ str (Execution.agent_id execution));
           Execution.error_message := Execution.error_message execution;
           Execution.created_at := Execution.created_at execution;
           Execution.updated_at := Execution.updated_at execution |} in
      exec (Execution_save now execution_id execution)
  end.

End ExecutionService.

(* ===================================================================== *)
(** ** Tokens: [jose.jwt] and passwords: [passlib] *)
(* ===================================================================== *)

(** The two libraries are not part of the repository.  [jose.jwt] is
    modelled symbolically: a compact token that parses is the triple of
    its header algorithm, the key its signature was made with and its
    claims, so that a signature verifies exactly under the key that
    made it; every other string is [Malformed].  Claim values are
    strings or integers; a [datetime] under ["exp"] is encoded as its
    POSIX second count. *)
Module jwt.

Inductive claim := Str (s : string) | Num (n : Z).

Inductive token :=
| Malformed (raw : string)
| Signed (alg : string) (key : string) (payload : gmap string claim).

Definition encode (claims : gmap string claim) (key : string)
    (algorithm : string) : token :=
  Signed algorithm key claims.

(** [jwt.decode(token, key, algorithms=...)] read at clock [now]:
    signature first, then the registered claims ["exp"] and ["sub"]. *)
Definition decode (now : Z) (t : token) (key : string)
    (algorithms : list string) : outcome (gmap string claim) :=
  match t with
  | Malformed _ => Raise (JWTError "Not enough segments")
  | Signed alg k payload =>
      if bool_decide (alg ∉ algorithms) then
        Raise (JWTError "The specified alg value is not allowed")
      else if bool_decide (k ≠ key) then
        Raise (JWTError "Signature verification failed.")
      else
        match payload !! "exp" with
        | Some (Str _) =>
            Raise (JWTError "Expiration Time claim (exp) must be an integer.")
        | Some (Num exp) =>
            if bool_decide (exp < now)%Z then
              Raise (JWTError "Signature has expired.")
            else
              match payload !! "sub" with
              | Some (Num _) => Raise (JWTError "Subject must be a string.")
              | _ => Return payload
              end
        | None =>
            match payload !! "sub" with
            | Some (Num _) => Raise (JWTError "Subject must be a string.")
            | _ => Return payload
            end
        end
  end.

End jwt.

(** [app/config.py] *)
Record Settings := {
  SECRET_KEY : string;
  ALGORITHM : string;
  ACCESS_TOKEN_EXPIRE_MINUTES : Z;
}.

Definition default_settings : Settings :=
  {| SECRET_KEY := "your-secret-key-change-this-in-production";
     ALGORITHM := "HS256";
     ACCESS_TOKEN_EXPIRE_MINUTES := 30 |}.

(** [passlib]'s [pwd_context]: only [verify(plain, hashed)] is used. *)
Record CryptContext := {
  verify : string → string → bool;
}.

(** [User.filter(username=u, deleted_at__isnull=True, is_active=True)
    .first()]; a value that is not a string equals no username. *)
Definition User_filter_first (db : DB) (u : jwt.claim) : option (string * User.t) :=
  match u with
  | jwt.Str username =>
      match users db !! username with
      | Some user =>
          if User.deleted_at user is None then
            if User.is_active user then Some (username, user) else None
          else None
      | None => None
      end
  | jwt.Num _ => None
  end.

(* ===================================================================== *)
(** ** [services/auth_service.py] *)
(* ===================================================================== *)

Module AuthService.

(** [expires_delta] is a [timedelta] in seconds; [if expires_delta:]
    is false for [None] and for the zero delta. *)
Definition create_access_token (settings : Settings) (now : Z)
    (data : gmap string jwt.claim) (expires_delta : option Z) : jwt.token :=
  let to_encode := data in
  let expire :=
    match expires_delta with
    | Some d => if bool_decide (d ≠ 0%Z) then (now + d)%Z
                else (now + 60 * ACCESS_TOKEN_EXPIRE_MINUTES settings)%Z
    | None => (now + 60 * ACCESS_TOKEN_EXPIRE_MINUTES settings)%Z
    end in
  let to_encode := <["exp" := jwt.Num expire]> to_encode in
  jwt.encode to_encode (SECRET_KEY settings) (ALGORITHM settings).

Definition authenticate_user (pwd_context : CryptContext)
    (username password : string) : M (option (string * User.t)) :=
  let! user := query (λ db, User_filter_first db (jwt.Str username)) in
  match user with
  | None => ret None
  | Some (name, user) =>
      if negb (verify pwd_context password (User.hashed_password user))
      then ret None
      else ret (Some (name, user))
  end.

(** Returns the value of [{"username": ...}]. *)
Definition verify_token (settings : Settings) (now : Z) (token : jwt.token)
  : M jwt.claim :=
  try_except
    (let! payload := lift (jwt.decode now token (SECRET_KEY settings)
                             [ALGORITHM settings]) in
     match payload !! "sub" with
     | None =>
         raise (HTTPException status.HTTP_401_UNAUTHORIZED
                  "Could not validate credentials - missing username"
                  [("WWW-Authenticate", "Bearer")])
     | Some username => ret username
     end)
    (λ e, match e with
          | JWTError msg =>
              raise (HTTPException status.HTTP_401_UNAUTHORIZED
                       ("Could not validate credentials: " +:+ msg)
                       [("WWW-Authenticate", "Bearer")])
          | _ => raise e
          end).

End AuthService.

(* ===================================================================== *)
(** ** [dependencies.py] *)
(* ===================================================================== *)

(** [credentials] is what [HTTPBearer(auto_error=False)] extracts:
    [None] when the Authorization header is missing or is not a Bearer
    header. *)
Definition get_current_user (settings : Settings) (now : Z)
    (credentials : option jwt.token) : M (string * User.t) :=
  match credentials with
  | None =>
      raise (HTTPException status.HTTP_401_UNAUTHORIZED
               "Authorization header missing or malformed"
               [("WWW-Authenticate", "Bearer")])
  | Some token =>
      let! token_data :=
        try_except (AuthService.verify_token settings now token)
                   (λ e, match e with
                         | HTTPException _ _ _ => raise e
                         | _ => raise e
                         end) in
      let! user := query (λ db, User_filter_first db token_data) in
      match user with
      | None =>
          raise (HTTPException status.HTTP_401_UNAUTHORIZED
                   "User not found or inactive"
                   [("WWW-Authenticate", "Bearer")])
      | Some user => ret user
      end
  end.

(* ===================================================================== *)
(** ** [routers/*.py] *)
(* ===================================================================== *)

Module routers.

(** What the client sees of a response: the status code and, on an
    error, the [detail] of the JSON body and the extra headers. *)
Record Response := {
  code : Z;
  error : option (string * list (string * string));
}.

(** A handler declared with [status_code=success]; a body that fails
    validation is answered 422, an exception FastAPI has no handler
    for surfaces as 500. *)
Definition respond {A} (success : Z) (r : outcome A) : Response :=
  match r with
  | Return _ => {| code := success; error := None |}
  | Raise (HTTPException c d h) => {| code := c; error := Some (d, h) |}
  | Raise (RequestValidationError d) => {| code := 422; error := Some (d, []) |}
  | Raise _ => {| code := 500; error := Some ("Internal Server Error", []) |}
  end.

(** [POST /login] *)
Definition login (settings : Settings) (pwd_context : CryptContext)
    (now : Z) (login_data : LoginRequest.t) : M jwt.token :=
  let! user := AuthService.authenticate_user pwd_context
                 (LoginRequest.username login_data)
                 (LoginRequest.password login_data) in
  match user with
  | None =>
      raise (HTTPException status.HTTP_404_NOT_FOUND
               "Incorrect username or password" [])
  | Some (username, _) =>
      let access_token_expires :=
        (60 * ACCESS_TOKEN_EXPIRE_MINUTES settings)%Z in
      let access_token :=
        AuthService.create_access_token settings now
          {[ "sub" := jwt.Str username ]} (Some access_token_expires) in
      ret access_token
  end.

Section protected.
(** Every other handler has [Depends(get_current_user)]. *)
Variables (settings : Settings) (now : Z) (credentials : option jwt.token).

Definition get_agents : M (gmap Z Agent.t) :=
  get_current_user settings now credentials ;;
  AgentService.get_all_agents.

Definition create_agent (agent_data : AgentCreate.t) : M Z :=
  get_current_user settings now credentials ;;
  AgentService.create_agent now agent_data.

Definition get_agent (agent_id : Z) : M Agent.t :=
  get_current_user settings now credentials ;;
  AgentService.get_agent_by_id agent_id.

Definition update_agent (agent_id : Z) (agent_data : AgentUpdate.t)
  : M Agent.t :=
  get_current_user settings now credentials ;;
  AgentService.update_agent now agent_id agent_data.

Definition delete_agent (agent_id : Z) : M unit :=
  get_current_user settings now credentials ;;
  AgentService.delete_agent now agent_id.

Definition get_tasks : M (gmap Z Task.t) :=
  get_current_user settings now credentials ;;
  TaskService.get_all_tasks.

(** The body is validated against [TaskCreate] before the handler
    runs. *)
Definition create_task (task_data : TaskCreate.t) : M (Z * list Z) :=
  get_current_user settings now credentials ;;
  if TaskCreate.validate task_data
  then TaskService.create_task now task_data
  else raise (RequestValidationError "List should have at least 1 item").

Definition get_task (task_id : Z) : M Task.t :=
  get_current_user settings now credentials ;;
  TaskService.get_task_by_id task_id.

Definition update_task (task_id : Z) (task_data : TaskUpdate.t)
  : M (Z * list Z) :=
  get_current_user settings now credentials ;;
  TaskService.update_task now task_id task_data.

Definition delete_task (task_id : Z) : M unit :=
  get_current_user settings now credentials ;;
  TaskService.delete_task now task_id.

Definition create_execution (execution_data : ExecutionCreate.t) : M Z :=
  get_current_user settings now credentials ;;
  ExecutionService.create_execution now execution_data.

Definition get_executions : M (gmap Z Execution.t) :=
  get_current_user settings now credentials ;;
  ExecutionService.get_all_executions.

Definition get_running_executions : M (gmap Z Execution.t) :=
  get_current_user settings now credentials ;;
  ExecutionService.get_running_executions.

Definition get_execution (execution_id : Z) : M Execution.t :=
  get_current_user settings now credentials ;;
  ExecutionService.get_execution_by_id execution_id.
End protected.

End routers.

(* ===================================================================== *)
(** ** The running process *)
(* ===================================================================== *)

Module Loop.

Inductive request :=
| Login (d : LoginRequest.t)
| GetAgents
| CreateAgent (d : AgentCreate.t)
| GetAgent (agent_id : Z)
| UpdateAgent (agent_id : Z) (d : AgentUpdate.t)
| DeleteAgent (agent_id : Z)
| GetTasks
| CreateTask (d : TaskCreate.t)
| GetTask (task_id : Z)
| UpdateTask (task_id : Z) (d : TaskUpdate.t)
| DeleteTask (task_id : Z)
| CreateExecution (d : ExecutionCreate.t)
| GetExecutions
| GetRunningExecutions
| GetExecution (execution_id : Z).

(** What the event loop does next: serve a request carrying some
    credentials, or resume the [n]-th pending coroutine. *)
Inductive event :=
| Request (credentials : option jwt.token) (r : request)
| Resume (n : nat).

Definition serve (settings : Settings) (pwd_context : CryptContext)
    (now : Z) (credentials : option jwt.token) (r : request)
    (st : State) : routers.Response * State :=
  let run {A} (success : Z) (m : M A) :=
    let '(o, st') := m st in (routers.respond success o, st') in
  match r with
  | Login d => run 200%Z (routers.login settings pwd_context now d)
  | GetAgents => run 200%Z (routers.get_agents settings now credentials)
  | CreateAgent d =>
      run 201%Z (routers.create_agent settings now credentials d)
  | GetAgent i => run 200%Z (routers.get_agent settings now credentials i)
  | UpdateAgent i d =>
      run 200%Z (routers.update_agent settings now credentials i d)
  | DeleteAgent i =>
      run 204%Z (routers.delete_agent settings now credentials i)
  | GetTasks => run 200%Z (routers.get_tasks settings now credentials)
  | CreateTask d =>
      run 201%Z (routers.create_task settings now credentials d)
  | GetTask i => run 200%Z (routers.get_task settings now credentials i)
  | UpdateTask i d =>
      run 200%Z (routers.update_task settings now credentials i d)
  | DeleteTask i =>
      run 204%Z (routers.delete_task settings now credentials i)
  | CreateExecution d =>
      run 201%Z (routers.create_execution settings now credentials d)
  | GetExecutions =>
      run 200%Z (routers.get_executions settings now credentials)
  | GetRunningExecutions =>
      run 200%Z (routers.get_running_executions settings now credentials)
  | GetExecution i =>
      run 200%Z (routers.get_execution settings now credentials i)
  end.

(** The [n]-th pending coroutine, once its [asyncio.sleep(5)] is
    over, runs to its end and leaves the loop; an exception it raises
    ends it all the same. *)
Definition resume (now : Z) (n : nat) (st : State) : State :=
  match loop st !! n with
  | Some c =>
      if bool_decide (spawned_at c + 5 ≤ now)%Z then
        (ExecutionService._simulate_execution now (execution_id c)
           {| store := store st; loop := delete n (loop st) |}).2
      else st
  | None => st
  end.

Definition step (settings : Settings) (pwd_context : CryptContext)
    (st : State) (ev : Z * event) : State :=
  match ev with
  | (now, Request credentials r) =>
      (serve settings pwd_context now credentials r st).2
  | (now, Resume n) => resume now n st
  end.

Definition run (settings : Settings) (pwd_context : CryptContext)
    (trace : list (Z * event)) (st : State) : State :=
  foldl (step settings pwd_context) st trace.

End Loop.

(* ===================================================================== *)
(** ** Vocabulary of the statements *)
(* ===================================================================== *)

(** The row exists and is not soft-deleted. *)
Definition agent_alive (db : DB) (i : Z) : Prop :=
  ∃ a, agents db !! i = Some a ∧ Agent.deleted_at a = None.

Definition task_alive (db : DB) (i : Z) : Prop :=
  ∃ t, tasks db !! i = Some t ∧ Task.deleted_at t = None.

(** The row exists and carries a deletion time. *)
Definition agent_soft_deleted (db : DB) (i : Z) : Prop :=
  ∃ a, agents db !! i = Some a ∧ is_Some (Agent.deleted_at a).

Definition task_soft_deleted (db : DB) (i : Z) : Prop :=
  ∃ t, tasks db !! i = Some t ∧ is_Some (Task.deleted_at t).

(** The agent is in the task's authorized-agent set. *)
Definition authorized (db : DB) (task_id agent_id : Z) : Prop :=
  (task_id, agent_id) ∈ task_agents db.

(** The row [Execution.create] writes at time [now]. *)
Definition fresh_execution (now task_id agent_id : Z) : Execution.t :=
  {| Execution.task_id := task_id; Execution.agent_id := agent_id;
     Execution.status := "running"; Execution.started_at := now;
     Execution.completed_at := None; Execution.result := None;
     Execution.error_message := None;
     Execution.created_at := now; Execution.updated_at := now |}.

Definition terminal (e : Execution.t) : Prop :=
  Execution.status e = "completed" ∨ Execution.status e = "failed".

(** A process that has just started on a store without executions. *)
Definition initial (st : State) : Prop :=
  executions (store st) = ∅ ∧ loop st = [].

(** The invariant of the execution lifecycle: the pending coroutines
    are for pairwise different executions, each of them still running;
    every running execution has its coroutine pending; and the
    primary-key counter is above every stored execution. *)
Record lifecycle_inv (st : State) : Prop := {
  inv_nodup : NoDup (execution_id <$> loop st);
  inv_running : ∀ c, c ∈ loop st →
    ∃ e, executions (store st) !! execution_id c = Some e
         ∧ Execution.status e = "running";
  inv_pending : ∀ i e, executions (store st) !! i = Some e →
    Execution.status e = "running" →
    ∃ c, c ∈ loop st ∧ execution_id c = i;
  inv_seq : ∀ i, is_Some (executions (store st) !! i) →
    (i < execution_seq (store st))%Z;
}.

(** A computation that neither touches the executions nor the loop. *)
Definition frames {A} (m : M A) : Prop :=
  ∀ st, executions (store (m st).2) = executions (store st)
        ∧ execution_seq (store (m st).2) = execution_seq (store st)
        ∧ loop (m st).2 = loop st.

(** The ["exp"] claim a token carries. *)
Definition exp_of (t : jwt.token) : option Z :=
  match t with
  | jwt.Signed _ _ payload =>
      match payload !! "exp" with
      | Some (jwt.Num n) => Some n
      | _ => None
      end
  | jwt.Malformed _ => None
  end.

Definition unauthenticated (detail : string) : exception :=
  HTTPException 401 detail [("WWW-Authenticate", "Bearer")].

(** The gate would hide which of its checks failed if any two failing
    requests got the same response. *)
Definition uniform_gate_failure : Prop :=
  ∀ settings now st c1 c2 e1 e2 st1 st2,
    get_current_user settings now c1 st = (Raise e1, st1) →
    get_current_user settings now c2 st = (Raise e2, st2) →
    routers.respond 200 (Raise (A := unit) e1)
    = routers.respond 200 (Raise (A := unit) e2).

(** The row [_simulate_execution] writes at time [now] over the row
    [e]. *)
Definition completed (now : Z) (e : Execution.t) : Execution.t :=
  {| Execution.task_id := Execution.task_id e;
     Execution.agent_id := Execution.agent_id e;
     Execution.status := "completed";
     Execution.started_at := Execution.started_at e;
     Execution.completed_at := Some now;
     Execution.result :=
       Some ("Task " +:+ str (Execution.task_id e)
             +:+ " completed successfully by agent "
             +:+ str (Execution.agent_id e));
     Execution.error_message := Execution.error_message e;
     Execution.created_at := Execution.created_at e;
     Execution.updated_at := now |}.

(** What one step of the process can do to the executions and to the
    loop. *)
Inductive transition (st st' : State) : Prop :=
| transition_frame :
    executions (store st') = executions (store st) →
    execution_seq (store st') = execution_seq (store st) →
    loop st' = loop st →
    transition st st'
| transition_create (now task_id agent_id : Z) :
    executions (store st') =
      <[execution_seq (store st) := fresh_execution now task_id agent_id]>
        (executions (store st)) →
    execution_seq (store st') = (execution_seq (store st) + 1)%Z →
    loop st' = loop st ++ [{| execution_id := execution_seq (store st);
                              spawned_at := now |}] →
    transition st st'
| transition_complete (now : Z) (n : nat) (c : Coroutine) (e : Execution.t) :
    loop st !! n = Some c →
    executions (store st) !! execution_id c = Some e →
    executions (store st') =
      <[execution_id c := completed now e]> (executions (store st)) →
    execution_seq (store st') = execution_seq (store st) →
    loop st' = delete n (loop st) →
    transition st st'
| transition_die (n : nat) (c : Coroutine) :
    loop st !! n = Some c →
    executions (store st) !! execution_id c = None →
    executions (store st') = executions (store st) →
    execution_seq (store st') = execution_seq (store st) →
    loop st' = delete n (loop st) →
    transition st st'.

(* ===================================================================== *)
(** ** A concrete store *)
(* ===================================================================== *)

(** One active user; agents 1 and 2 alive, agent 3 soft-deleted; task 1
    alive with agent 1 authorized, task 2 soft-deleted; no execution
    yet. *)
Module scenario.

Definition pwd_context : CryptContext :=
  {| verify := λ plain hashed, bool_decide (hashed = "$2b$" +:+ plain) |}.

Definition admin : User.t :=
  {| User.email := "admin@example.com";
     User.hashed_password := "$2b$admin123";
     User.is_active := true; User.deleted_at := None |}.

Definition agent (name : string) (deleted_at : option Z) : Agent.t :=
  {| Agent.name := name; Agent.description := "";
     Agent.created_at := 0; Agent.updated_at := 0;
     Agent.deleted_at := deleted_at |}.

Definition task (title : string) (deleted_at : option Z) : Task.t :=
  {| Task.title := title; Task.description := ""; Task.status := "pending";
     Task.created_at := 0; Task.updated_at := 0;
     Task.deleted_at := deleted_at |}.

Definition db : DB :=
  {| users := {[ "admin" := admin ]};
     agents := {[ 1%Z := agent "A1" None; 2%Z := agent "A2" None;
                  3%Z := agent "A3" (Some 5%Z) ]};
     tasks := {[ 1%Z := task "T1" None; 2%Z := task "T2" (Some 5%Z) ]};
     task_agents := {[ (1%Z, 1%Z) ]};
     executions := ∅;
     agent_seq := 4; task_seq := 3; execution_seq := 1 |}.

Definition st : State := {| store := db; loop := [] |}.

(** a token for [admin] and one for a username nobody has *)
Definition token : jwt.token :=
  AuthService.create_access_token default_settings 10
    {[ "sub" := jwt.Str "admin" ]} None.

Definition stray_token : jwt.token :=
  AuthService.create_access_token default_settings 10
    {[ "sub" := jwt.Str "nobody" ]} None.

(** execution (task 1, agent 1) is created at 20 and completed at 25 *)
Definition before : list (Z * Loop.event) :=
  [ (20%Z, Loop.Request (Some token)
             (Loop.CreateExecution {| ExecutionCreate.task_id := 1;
                                      ExecutionCreate.agent_id := 1 |}));
    (25%Z, Loop.Resume 0) ].

(** then the task is deleted, a second execution is asked for and a
    stale resumption arrives *)
Definition after : list (Z * Loop.event) :=
  [ (30%Z, Loop.Request (Some token) (Loop.DeleteTask 1));
    (31%Z, Loop.Request (Some token)
             (Loop.CreateExecution {| ExecutionCreate.task_id := 1;
                                      ExecutionCreate.agent_id := 1 |}));
    (40%Z, Loop.Resume 0) ].

End scenario.


(* ===================================================================== *)
(** ** [middleware/rate_limiter.py] *)
(* ===================================================================== *)

(** [time.time()] is a binary64 float, as are the recorded timestamps;
    the window is an [int].  [x < n] between a float and an int
    compares the exact values: a finite float is [(-1)^s * m * 2^e], a
    NaN is below nothing, minus infinity is below every int. *)
Definition float_lt_int (x : PrimFloat.float) (n : Z) : bool :=
  match FloatOps.Prim2SF x with
  | SpecFloat.S754_nan => false
  | SpecFloat.S754_infinity s => s
  | SpecFloat.S754_zero _ => bool_decide (0 < n)%Z
  | SpecFloat.S754_finite s m e =>
      let v := if s then Z.neg m else Z.pos m in
      if bool_decide (0 ≤ e)%Z then bool_decide (v * 2 ^ e < n)%Z
      else bool_decide (v < n * 2 ^ (- e))%Z
  end.

Module RateLimitMiddleware.

(** What the middleware reads of a request. *)
Record Request := {
  path : string;
  client_host : string;
}.

(** [self]: [clients] is the [defaultdict(list)] of timestamps per
    client address. *)
Record t := {
  calls_limit : Z;
  time_window : Z;
  clients : gmap string (list PrimFloat.float);
}.

Definition __init__ (calls_limit time_window : Z) : t :=
  {| calls_limit := calls_limit; time_window := time_window; clients := ∅ |}.

(** [self.clients[ip]], an empty list for a client not seen before *)
Definition record_of (self : t) (ip : string) : list PrimFloat.float :=
  default [] (clients self !! ip).

Definition set_record (self : t) (ip : string) (l : list PrimFloat.float) : t :=
  {| calls_limit := calls_limit self; time_window := time_window self;
     clients := <[ip := l]> (clients self) |}.

(** [current_time - timestamp < self.time_window] *)
Definition in_window (self : t) (current_time timestamp : PrimFloat.float)
  : bool :=
  float_lt_int (PrimFloat.sub current_time timestamp) (time_window self).

(** [dispatch(request, call_next)] at clock [current_time]; the result
    of [call_next(request)] is returned as it is. *)
Definition dispatch {R} (self : t) (current_time : PrimFloat.float)
    (request : Request) (call_next : Request → R) : outcome R * t :=
  if bool_decide (path request ∈ ["/docs"; "/redoc"; "/openapi.json"])
  then (Return (call_next request), self)
  else
    let client_ip := client_host request in
    let self :=
      set_record self client_ip
        (List.filter (in_window self current_time) (record_of self client_ip)) in
    if bool_decide (calls_limit self ≤ Z.of_nat (length (record_of self client_ip)))%Z
    then
      (Raise (HTTPException 429
                ("Rate limit exceeded. Maximum " +:+ str (calls_limit self)
                 +:+ " requests per " +:+ str (time_window self)
                 +:+ " seconds.") []), self)
    else
      let self :=
        set_record self client_ip (record_of self client_ip ++ [current_time]) in
      (Return (call_next request), self).

(** The middleware over a sequence of requests, each at its clock
    reading. *)
Definition dispatch_all (self : t)
    (requests : list (PrimFloat.float * Request)) : t :=
  foldl (λ self tr, (dispatch self tr.1 tr.2 (λ _, tt)).2) self requests.

End RateLimitMiddleware.

(* ===================================================================== *)
(** ** Vocabulary of the further statements *)
(* ===================================================================== *)

(** The two shapes an execution row takes: running with nothing
    filled in, or completed with a completion time and a result. *)
Definition execution_shape (e : Execution.t) : Prop :=
  (Execution.status e = "running"
   ∧ Execution.completed_at e = None ∧ Execution.result e = None
   ∧ Execution.error_message e = None)
  ∨ (Execution.status e = "completed"
     ∧ is_Some (Execution.completed_at e) ∧ is_Some (Execution.result e)
     ∧ Execution.error_message e = None).

(** [st'] still has every agent, task and execution row of [st], and
    the very same users. *)
Record extends (st st' : State) : Prop := {
  ext_agents : ∀ i, is_Some (agents (store st) !! i) →
                    is_Some (agents (store st') !! i);
  ext_tasks : ∀ i, is_Some (tasks (store st) !! i) →
                   is_Some (tasks (store st') !! i);
  ext_executions : ∀ i, is_Some (executions (store st) !! i) →
                        is_Some (executions (store st') !! i);
  ext_users : users (store st') = users (store st);
}.

Definition retains {A} (m : M A) : Prop := ∀ st, extends st (m st).2.

(** The primary-key counters are above every stored key, and a
    junction row refers to a stored task (what the foreign key of
    [task_agents] and the sequences of the database guarantee). *)
Record store_ok (db : DB) : Prop := {
  ok_agent_seq : ∀ i, is_Some (agents db !! i) → (i < agent_seq db)%Z;
  ok_task_seq : ∀ i, is_Some (tasks db !! i) → (i < task_seq db)%Z;
  ok_execution_seq : ∀ i, is_Some (executions db !! i) →
                          (i < execution_seq db)%Z;
  ok_junction : ∀ t a, (t, a) ∈ task_agents db → is_Some (tasks db !! t);
}.

(** The string fits a [CharField(max_length=n)]: at most [n] bytes,
    hence at most [n] characters. *)
Definition fits (n : nat) (s : string) : Prop := String.length s ≤ n.

(** A computation that leaves the state as it found it. *)
Definition readonly {A} (m : M A) : Prop := ∀ st, (m st).2 = st.

(** Every agent and task row that is soft-deleted in [db] is found
    unchanged in [db']. *)
Definition frozen (db db' : DB) : Prop :=
  (∀ i a, agents db !! i = Some a → is_Some (Agent.deleted_at a) →
          agents db' !! i = Some a)
  ∧ (∀ i t, tasks db !! i = Some t → is_Some (Task.deleted_at t) →
            tasks db' !! i = Some t).

(* ===================================================================== *)
(** ** Further concrete inputs *)
(* ===================================================================== *)

Module fixtures.

(** the store of [scenario] once execution 1 has been created and
    completed *)
Definition later : State :=
  Loop.run default_settings scenario.pwd_context scenario.before scenario.st.

(** a limiter of two calls a minute that has seen client ["10.0.0.1"]
    at seconds 1 and 2 *)
Definition api (ip : string) : RateLimitMiddleware.Request :=
  {| RateLimitMiddleware.path := "/api/agents";
     RateLimitMiddleware.client_host := ip |}.

Definition docs (ip : string) : RateLimitMiddleware.Request :=
  {| RateLimitMiddleware.path := "/docs";
     RateLimitMiddleware.client_host := ip |}.

(** the clock reading [n] seconds *)
Definition second (n : positive) : PrimFloat.float :=
  FloatOps.SF2Prim (SpecFloat.S754_finite false n 0).

Definition limiter : RateLimitMiddleware.t :=
  RateLimitMiddleware.dispatch_all (RateLimitMiddleware.__init__ 2 60)
    [ (second 1, api "10.0.0.1"); (second 2, api "10.0.0.1") ].

End fixtures.
(* ===================================================================== *)
(** ** Queries *)
(* ===================================================================== *)

Lemma Agent_filter_first_Some db i a :
  Agent_filter_first db i = Some a ↔
  agents db !! i = Some a ∧ Agent.deleted_at a = None.
Proof.
  unfold Agent_filter_first.
  destruct (agents db !! i) as [a'|]; [|naive_solver].
  destruct (Agent.deleted_at a') eqn:E; naive_solver.
Qed.

Lemma Agent_filter_first_alive db i :
  is_Some (Agent_filter_first db i) ↔ agent_alive db i.
Proof.
  unfold agent_alive, is_Some.
  setoid_rewrite Agent_filter_first_Some. naive_solver.
Qed.

Lemma Task_filter_first_Some db i t :
  Task_filter_first db i = Some t ↔
  tasks db !! i = Some t ∧ Task.deleted_at t = None.
Proof.
  unfold Task_filter_first.
  destruct (tasks db !! i) as [t'|]; [|naive_solver].
  destruct (Task.deleted_at t') eqn:E; naive_solver.
Qed.

Lemma Task_filter_first_alive db i :
  is_Some (Task_filter_first db i) ↔ task_alive db i.
Proof.
  unfold task_alive, is_Some.
  setoid_rewrite Task_filter_first_Some. naive_solver.
Qed.

Lemma elem_of_ids_of {A} (rows : gmap Z A) i :
  i ∈ ids_of rows ↔ is_Some (rows !! i).
Proof.
  unfold ids_of. rewrite list_elem_of_fmap. split.
  - intros [[k v] [-> Hin]]. apply elem_of_map_to_list in Hin. by exists v.
  - intros [v Hv]. exists (i, v). split; [done|]. by apply elem_of_map_to_list.
Qed.

Lemma elem_of_Task_agents_all db tid i :
  i ∈ ids_of (Task_agents_all tid db) ↔
  authorized db tid i ∧ is_Some (agents db !! i).
Proof.
  rewrite elem_of_ids_of. unfold Task_agents_all, authorized, is_Some.
  setoid_rewrite map_lookup_filter_Some. naive_solver.
Qed.

(* ===================================================================== *)
(** ** Execution creation *)
(* ===================================================================== *)

Section create_execution.
Variables (now task_id agent_id : Z) (st : State).
Local Abbreviation d := {| ExecutionCreate.task_id := task_id;
                 ExecutionCreate.agent_id := agent_id |}.
Local Abbreviation db := (store st).

Lemma create_execution_ok :
  task_alive db task_id → agent_alive db agent_id →
  authorized db task_id agent_id →
  ExecutionService.create_execution now d st =
    (Return (execution_seq db),
     {| store := (Execution_create now task_id agent_id "running" db).2;
        loop := loop st ++ [{| execution_id := execution_seq db;
                               spawned_at := now |}] |}).
Proof.
  intros Ht Ha Hauth.
  apply Task_filter_first_alive in Ht as [t Ht].
  pose proof Ha as [a0 [Ha0 _]].
  apply Agent_filter_first_alive in Ha as [a Ha].
  unfold ExecutionService.create_execution, bind, query, create,
    create_task_on_loop, ret; simpl.
  rewrite Ht, Ha.
  rewrite bool_decide_eq_false_2; [done|].
  intros Hn. apply Hn, elem_of_Task_agents_all. eauto.
Qed.

Lemma create_execution_no_task :
  ¬ task_alive db task_id →
  ExecutionService.create_execution now d st =
    (Raise (HTTPException 404
              ("Task with id " +:+ str task_id +:+ " not found") []), st).
Proof.
  intros Ht. rewrite <- Task_filter_first_alive in Ht.
  unfold ExecutionService.create_execution, bind, query, raise; simpl.
      destruct (Task_filter_first db task_id); [|done].
  exfalso; eauto.
Qed.

Lemma create_execution_no_agent :
  task_alive db task_id → ¬ agent_alive db agent_id →
  ExecutionService.create_execution now d st =
    (Raise (HTTPException 404
              ("Agent with id " +:+ str agent_id +:+ " not found") []), st).
Proof.
  intros Ht Ha. apply Task_filter_first_alive in Ht as [t Ht].
  rewrite <- Agent_filter_first_alive in Ha.
  unfold ExecutionService.create_execution, bind, query, raise; simpl.
  rewrite Ht.
  destruct (Agent_filter_first db agent_id); [|done].
  exfalso; eauto.
Qed.

Lemma create_execution_unauthorized :
  task_alive db task_id → agent_alive db agent_id →
  ¬ authorized db task_id agent_id →
  ExecutionService.create_execution now d st =
    (Raise (HTTPException 400
              ("Agent " +:+ str agent_id
               +:+ " is not authorized to run task " +:+ str task_id) []),
     st).
Proof.
  intros Ht Ha Hauth.
  apply Task_filter_first_alive in Ht as [t Ht].
  apply Agent_filter_first_alive in Ha as [a Ha].
  unfold ExecutionService.create_execution, bind, query, raise; simpl.
  rewrite Ht, Ha.
  rewrite bool_decide_eq_true_2; [done|].
  rewrite elem_of_Task_agents_all. tauto.
Qed.
End create_execution.

Lemma task_alive_dec db i : Decision (task_alive db i).
Proof.
  destruct (Task_filter_first db i) eqn:E.
  - left. apply Task_filter_first_alive. eauto.
  - right. rewrite <- Task_filter_first_alive, E. by intros [? ?].
Qed.

Lemma agent_alive_dec db i : Decision (agent_alive db i).
Proof.
  destruct (Agent_filter_first db i) eqn:E.
  - left. apply Agent_filter_first_alive. eauto.
  - right. rewrite <- Agent_filter_first_alive, E. by intros [? ?].
Qed.

(** C1.  Creating an execution for [(task_id, agent_id)] answers 201
    exactly when the task is alive, the agent is alive and the agent is
    in the task's authorized-agent set, and it then stores a new
    running execution; a missing or soft-deleted task or agent answers
    404, an alive but unauthorized agent answers 400, and both leave
    the state untouched. *)
Theorem create_execution_201_iff (now : Z) (d : ExecutionCreate.t) (st : State) :
  let task_id := ExecutionCreate.task_id d in
  let agent_id := ExecutionCreate.agent_id d in
  let db := store st in
  let r := ExecutionService.create_execution now d st in
  (routers.code (routers.respond 201 r.1) = 201%Z ↔
     task_alive db task_id ∧ agent_alive db agent_id
     ∧ authorized db task_id agent_id)
  ∧ (routers.code (routers.respond 201 r.1) = 201%Z →
     r.1 = Return (execution_seq db)
     ∧ executions (store r.2) =
         <[execution_seq db := fresh_execution now task_id agent_id]>
           (executions db))
  ∧ (¬ task_alive db task_id ∨ ¬ agent_alive db agent_id →
     routers.code (routers.respond 201 r.1) = 404%Z ∧ r.2 = st)
  ∧ (task_alive db task_id ∧ agent_alive db agent_id
     ∧ ¬ authorized db task_id agent_id →
     routers.code (routers.respond 201 r.1) = 400%Z ∧ r.2 = st).
Proof.
  destruct d as [task_id agent_id]. intros ? ? db r. subst r. simpl in *.
  destruct (task_alive_dec db task_id) as [Ht|Ht].
  2: { rewrite (create_execution_no_task now task_id agent_id st Ht); simpl.
       repeat split; try done; try tauto; intros; exfalso; tauto. }
  destruct (agent_alive_dec db agent_id) as [Ha|Ha].
  2: { rewrite (create_execution_no_agent now task_id agent_id st Ht Ha); simpl.
       repeat split; try done; try tauto; intros; exfalso; tauto. }
  destruct (decide ((task_id, agent_id) ∈ task_agents db)) as [Hz|Hz].
  2: { rewrite (create_execution_unauthorized now task_id agent_id st Ht Ha Hz); simpl.
       repeat split; try done; try tauto; intros; exfalso; tauto. }
  rewrite (create_execution_ok now task_id agent_id st Ht Ha Hz); simpl.
  repeat split; try done; try tauto; intros; exfalso; tauto.
Qed.

(* ===================================================================== *)
(** ** Soft delete *)
(* ===================================================================== *)

Lemma get_agent_by_id_soft_deleted agent_id st :
  agent_soft_deleted (store st) agent_id →
  AgentService.get_agent_by_id agent_id st =
    (Raise (HTTPException 404
              ("Agent with id " +:+ str agent_id +:+ " not found") []), st).
Proof.
  intros (a & Ha & t & Hd).
  unfold AgentService.get_agent_by_id, bind, query, Agent_filter_first; simpl.
  by rewrite Ha, Hd.
Qed.

Lemma get_task_by_id_soft_deleted task_id st :
  task_soft_deleted (store st) task_id →
  TaskService.get_task_by_id task_id st =
    (Raise (HTTPException 404
              ("Task with id " +:+ str task_id +:+ " not found") []), st).
Proof.
  intros (a & Ha & t & Hd).
  unfold TaskService.get_task_by_id, bind, query, Task_filter_first; simpl.
  by rewrite Ha, Hd.
Qed.

Lemma delete_agent_Return now agent_id st st' :
  AgentService.delete_agent now agent_id st = (Return tt, st') →
  agent_alive (store st) agent_id ∧ agent_soft_deleted (store st') agent_id.
Proof.
  unfold AgentService.delete_agent, AgentService.get_agent_by_id,
    bind, query, exec, ret, raise; simpl.
  destruct (Agent_filter_first (store st) agent_id) as [a|] eqn:E; [|done].
  intros [= <-]. split.
  - apply Agent_filter_first_alive. eauto.
  - eexists. simpl. rewrite lookup_insert_eq. split; [done|]. simpl. eauto.
Qed.

Lemma delete_task_Return now task_id st st' :
  TaskService.delete_task now task_id st = (Return tt, st') →
  task_alive (store st) task_id ∧ task_soft_deleted (store st') task_id.
Proof.
  unfold TaskService.delete_task, TaskService.get_task_by_id,
    bind, query, exec, ret, raise; simpl.
  destruct (Task_filter_first (store st) task_id) as [a|] eqn:E; [|done].
  intros [= <-]. split.
  - apply Task_filter_first_alive. eauto.
  - eexists. simpl. rewrite lookup_insert_eq. split; [done|]. simpl. eauto.
Qed.

Lemma delete_agent_soft_deleted now agent_id st :
  agent_soft_deleted (store st) agent_id →
  AgentService.delete_agent now agent_id st =
    (Raise (HTTPException 404
              ("Agent with id " +:+ str agent_id +:+ " not found") []), st).
Proof.
  intros H. unfold AgentService.delete_agent, bind.
  by rewrite get_agent_by_id_soft_deleted.
Qed.

Lemma delete_task_soft_deleted now task_id st :
  task_soft_deleted (store st) task_id →
  TaskService.delete_task now task_id st =
    (Raise (HTTPException 404
              ("Task with id " +:+ str task_id +:+ " not found") []), st).
Proof.
  intros H. unfold TaskService.delete_task, bind.
  by rewrite get_task_by_id_soft_deleted.
Qed.

(** C6.  Once an agent (a task) has been soft-deleted by a successful
    delete, deleting the same id again answers 404 instead of 204 and
    changes nothing: the lookup that resolves the id skips deleted
    rows. *)
Theorem second_soft_delete_404 (now now' i : Z) (st : State) :
  (∀ st1, AgentService.delete_agent now i st = (Return tt, st1) →
     agent_soft_deleted (store st1) i
     ∧ AgentService.get_agent_by_id i st1 =
         (Raise (HTTPException 404
                   ("Agent with id " +:+ str i +:+ " not found") []), st1)
     ∧ routers.code
         (routers.respond 204 (AgentService.delete_agent now' i st1).1) = 404%Z
     ∧ (AgentService.delete_agent now' i st1).2 = st1)
  ∧ (∀ st1, TaskService.delete_task now i st = (Return tt, st1) →
     task_soft_deleted (store st1) i
     ∧ TaskService.get_task_by_id i st1 =
         (Raise (HTTPException 404
                   ("Task with id " +:+ str i +:+ " not found") []), st1)
     ∧ routers.code
         (routers.respond 204 (TaskService.delete_task now' i st1).1) = 404%Z
     ∧ (TaskService.delete_task now' i st1).2 = st1).
Proof.
  split; intros st1 H.
  - apply delete_agent_Return in H as [_ H].
    rewrite delete_agent_soft_deleted, get_agent_by_id_soft_deleted by done.
    done.
  - apply delete_task_Return in H as [_ H].
    rewrite delete_task_soft_deleted, get_task_by_id_soft_deleted by done.
    done.
Qed.

(* ===================================================================== *)
(** ** Login *)
(* ===================================================================== *)

Lemma User_filter_first_Some db username user :
  users db !! username = Some user →
  User.is_active user = true → User.deleted_at user = None →
  User_filter_first db (jwt.Str username) = Some (username, user).
Proof. intros H1 H2 H3. simpl. by rewrite H1, H3, H2. Qed.

Lemma User_filter_first_None db username :
  (∀ user, users db !! username = Some user →
           User.is_active user = false ∨ is_Some (User.deleted_at user)) →
  User_filter_first db (jwt.Str username) = None.
Proof.
  intros H. simpl. destruct (users db !! username) as [u|] eqn:E; [|done].
  destruct (H u eq_refl) as [H1|[t H1]]; rewrite H1; [|done].
  by destruct (User.deleted_at u).
Qed.

(** C7.  For a stored, active, non-deleted user, a password that does
    not match the stored hash makes [POST /login] answer 404, with the
    very response an unknown username gets. *)
Theorem login_wrong_password_404 (settings : Settings)
    (pwd_context : CryptContext) (now : Z) (st : State)
    (username password : string) (user : User.t) :
  users (store st) !! username = Some user →
  User.is_active user = true →
  User.deleted_at user = None →
  verify pwd_context password (User.hashed_password user) = false →
  let r := routers.login settings pwd_context now
             {| LoginRequest.username := username;
                LoginRequest.password := password |} st in
  r = (Raise (HTTPException 404 "Incorrect username or password" []), st)
  ∧ routers.code (routers.respond 200 r.1) = 404%Z
  ∧ ∀ unknown pw, users (store st) !! unknown = None →
      routers.login settings pwd_context now
        {| LoginRequest.username := unknown;
           LoginRequest.password := pw |} st = r.
Proof.
  intros Hu Hact Hdel Hpw r.
  assert (Hr : r = (Raise (HTTPException 404 "Incorrect username or password" []), st)).
  { subst r. unfold routers.login, AuthService.authenticate_user, bind, query.
    cbn [LoginRequest.username LoginRequest.password store].
    rewrite (User_filter_first_Some _ _ _ Hu Hact Hdel). by rewrite Hpw. }
  rewrite Hr. split; [done|]. split; [done|].
  intros unknown pw Hn.
  unfold routers.login, AuthService.authenticate_user, bind, query.
  cbn [LoginRequest.username LoginRequest.password store].
  rewrite User_filter_first_None; [done|]. intros u Hu'. congruence.
Qed.

(* ===================================================================== *)
(** ** Counting the agents behind a list of ids *)
(* ===================================================================== *)

Lemma Agent_filter_in_live_Some db ids i a :
  Agent_filter_in_live db ids !! i = Some a ↔
  agents db !! i = Some a ∧ i ∈ ids ∧ Agent.deleted_at a = None.
Proof. unfold Agent_filter_in_live. rewrite map_lookup_filter_Some. naive_solver. Qed.

Lemma Agent_filter_in_Some db ids i a :
  Agent_filter_in db ids !! i = Some a ↔ agents db !! i = Some a ∧ i ∈ ids.
Proof. unfold Agent_filter_in. by rewrite map_lookup_filter_Some. Qed.



Lemma size_list_to_set_le (l : list Z) :
  size (list_to_set l : gset Z) ≤ length l.
Proof.
  induction l as [|x l IH]; [done|].
  rewrite list_to_set_cons, size_union_alt, size_singleton. simpl.
  assert (size (list_to_set l ∖ {[x]} : gset Z) ≤ size (list_to_set l : gset Z))
    by (apply subseteq_size; set_solver).
  lia.
Qed.

Lemma size_list_to_set_dup (l : list Z) :
  ¬ NoDup l → size (list_to_set l : gset Z) < length l.
Proof.
  induction l as [|x l IH]; intros Hd.
  - destruct Hd. constructor.
  - destruct (decide (x ∈ l)) as [Hin|Hin].
    + assert (list_to_set (x :: l) = (list_to_set l : gset Z)) as ->
        by set_solver.
      pose proof (size_list_to_set_le l). simpl. lia.
    + assert (¬ NoDup l) as Hl by (intros ?; apply Hd; by constructor).
      specialize (IH Hl).
      rewrite list_to_set_cons, size_union_alt, size_singleton. simpl.
      assert (size (list_to_set l ∖ {[x]} : gset Z)
              ≤ size (list_to_set l : gset Z))
        by (apply subseteq_size; set_solver).
      lia.
Qed.

(** The live rows matching [id__in=ids] are at most as many as the
    distinct ids. *)
Lemma count_le_distinct db ids :
  size (Agent_filter_in_live db ids) ≤ size (list_to_set ids : gset Z).
Proof.
  rewrite <- (size_dom (D := gset Z)). apply subseteq_size.
  intros i Hi. apply elem_of_dom in Hi as [a Ha].
  apply Agent_filter_in_live_Some in Ha as (_ & Hin & _).
  by apply elem_of_list_to_set.
Qed.

(** One id without a live row makes the count fall short. *)
Lemma count_lt_missing db ids i :
  i ∈ ids → Agent_filter_first db i = None →
  size (Agent_filter_in_live db ids) < length ids.
Proof.
  intros Hin Hnone.
  pose proof (size_list_to_set_le ids).
  enough (size (Agent_filter_in_live db ids) < size (list_to_set ids : gset Z))
    by lia.
  rewrite <- (size_dom (D := gset Z)). apply subset_size.
  split.
  - intros j Hj. apply elem_of_dom in Hj as [a Ha].
    apply Agent_filter_in_live_Some in Ha as (_ & Hj & _).
    by apply elem_of_list_to_set.
  - intros Hsub.
    assert (i ∈ dom (Agent_filter_in_live db ids)) as Hi
      by (apply Hsub; by apply elem_of_list_to_set).
    apply elem_of_dom in Hi as [a Ha].
    apply Agent_filter_in_live_Some in Ha as (Ha & _ & Hd).
    assert (Agent_filter_first db i = Some a) by by apply Agent_filter_first_Some.
    congruence.
Qed.

Lemma verify_agents_exist_eq ids st :
  AgentService.verify_agents_exist ids st =
    (Return (bool_decide (size (Agent_filter_in_live (store st) ids)
                          = length ids)), st).
Proof. done. Qed.

Lemma verify_agents_exist_false ids st :
  size (Agent_filter_in_live (store st) ids) < length ids →
  AgentService.verify_agents_exist ids st = (Return false, st).
Proof.
  intros H. rewrite verify_agents_exist_eq.
  rewrite bool_decide_eq_false_2; [done|lia].
Qed.

Lemma create_task_400 now d st :
  AgentService.verify_agents_exist (TaskCreate.supported_agent_ids d) st
    = (Return false, st) →
  TaskService.create_task now d st =
    (Raise (HTTPException 400 "One or more agent IDs do not exist" []), st).
Proof. intros H. unfold TaskService.create_task, bind. by rewrite H. Qed.

Lemma update_task_400 now task_id d ids st :
  task_alive (store st) task_id →
  TaskUpdate.supported_agent_ids d = Some ids →
  AgentService.verify_agents_exist ids st = (Return false, st) →
  TaskService.update_task now task_id d st =
    (Raise (HTTPException 400 "One or more agent IDs do not exist" []), st).
Proof.
  intros Ht Hids H. apply Task_filter_first_alive in Ht as [t Ht].
  unfold TaskService.update_task, TaskService.get_task_by_id, bind, query.
  rewrite Ht, Hids. cbn [ret]. by rewrite H.
Qed.

(** C8.  When one of the supplied agent ids has no existing,
    non-deleted agent, [create_task] raises 400 before anything is
    written: the state after the call is the state before it, so no
    task row exists that did not exist before. *)
Theorem create_task_invalid_agent_400 (now : Z) (d : TaskCreate.t)
    (st : State) (i : Z) :
  i ∈ TaskCreate.supported_agent_ids d →
  ¬ agent_alive (store st) i →
  TaskService.create_task now d st =
    (Raise (HTTPException 400 "One or more agent IDs do not exist" []), st)
  ∧ routers.code (routers.respond 201 (TaskService.create_task now d st).1)
    = 400%Z
  ∧ tasks (store (TaskService.create_task now d st).2) = tasks (store st).
Proof.
  intros Hin Hdead.
  assert (Agent_filter_first (store st) i = None) as Hnone.
  { apply eq_None_not_Some. by rewrite Agent_filter_first_alive. }
  rewrite create_task_400; [done|].
  apply verify_agents_exist_false. by eapply count_lt_missing.
Qed.

(** C10.  A list of agent ids with a repeated id is rejected by
    [verify_agents_exist] whatever the agents are, alive ones included:
    the rows counted are distinct, the length compared with is the raw
    one.  Task creation then answers 400, and so does the update of an
    existing task. *)
Theorem verify_agents_exist_duplicate (ids : list Z) (st : State) :
  ¬ NoDup ids →
  AgentService.verify_agents_exist ids st = (Return false, st)
  ∧ (∀ now d, TaskCreate.supported_agent_ids d = ids →
       TaskService.create_task now d st =
         (Raise (HTTPException 400 "One or more agent IDs do not exist" []),
          st))
  ∧ (∀ now task_id d, task_alive (store st) task_id →
       TaskUpdate.supported_agent_ids d = Some ids →
       TaskService.update_task now task_id d st =
         (Raise (HTTPException 400 "One or more agent IDs do not exist" []),
          st)).
Proof.
  intros Hdup.
  assert (AgentService.verify_agents_exist ids st = (Return false, st)) as Hv.
  { apply verify_agents_exist_false.
    pose proof (count_le_distinct (store st) ids).
    pose proof (size_list_to_set_dup ids Hdup). lia. }
  split; [done|]. split.
  - intros now d <-. by apply create_task_400.
  - intros now task_id d Ht Hids. by eapply update_task_400.
Qed.


(* ===================================================================== *)
(** ** From creation to completion *)
(* ===================================================================== *)

Lemma _simulate_execution_Some now i e st :
  executions (store st) !! i = Some e →
  ExecutionService._simulate_execution now i st =
    (Return tt,
     {| store :=
          set_executions
            (insert i
               {| Execution.task_id := Execution.task_id e;
                  Execution.agent_id := Execution.agent_id e;
                  Execution.status := "completed";
                  Execution.started_at := Execution.started_at e;
                  Execution.completed_at := Some now;
                  Execution.result :=
                    Some ("Task " +:+ str (Execution.task_id e)
                          +:+ " completed successfully by agent "
                          +:+ str (Execution.agent_id e));
                  Execution.error_message := Execution.error_message e;
                  Execution.created_at := Execution.created_at e;
                  Execution.updated_at := now |}) (store st);
        loop := loop st |}).
Proof.
  intros H. unfold ExecutionService._simulate_execution, bind, query.
  by rewrite H.
Qed.

Lemma _simulate_execution_None now i st :
  executions (store st) !! i = None →
  ExecutionService._simulate_execution now i st = (Raise DoesNotExist, st).
Proof.
  intros H. unfold ExecutionService._simulate_execution, bind, query.
  by rewrite H.
Qed.

(** C4.  For an authorized pair the created execution is running, with
    start time [now] and no completion time, result or error; when the
    loop resumes its coroutine after the five seconds of simulated
    work, the same execution is completed, with a completion time, the
    result naming the task and the agent, and still no error.  Before
    the delay is over the coroutine does not run. *)
Theorem execution_created_then_completed (now now' task_id agent_id : Z)
    (st : State) :
  task_alive (store st) task_id →
  agent_alive (store st) agent_id →
  authorized (store st) task_id agent_id →
  let d := {| ExecutionCreate.task_id := task_id;
              ExecutionCreate.agent_id := agent_id |} in
  let r := ExecutionService.create_execution now d st in
  let i := execution_seq (store st) in
  let n := length (loop st) in
  r.1 = Return i
  ∧ executions (store r.2) !! i =
      Some {| Execution.task_id := task_id; Execution.agent_id := agent_id;
              Execution.status := "running"; Execution.started_at := now;
              Execution.completed_at := None; Execution.result := None;
              Execution.error_message := None;
              Execution.created_at := now; Execution.updated_at := now |}
  ∧ loop r.2 !! n = Some {| execution_id := i; spawned_at := now |}
  ∧ ((now' < now + 5)%Z → Loop.resume now' n r.2 = r.2)
  ∧ ((now + 5 ≤ now')%Z →
     executions (store (Loop.resume now' n r.2)) !! i =
       Some {| Execution.task_id := task_id; Execution.agent_id := agent_id;
               Execution.status := "completed"; Execution.started_at := now;
               Execution.completed_at := Some now';
               Execution.result :=
                 Some ("Task " +:+ str task_id
                       +:+ " completed successfully by agent "
                       +:+ str agent_id);
               Execution.error_message := None;
               Execution.created_at := now; Execution.updated_at := now' |}).
Proof.
  intros Ht Ha Hz d r i n. subst r d i n.
  rewrite (create_execution_ok now task_id agent_id st Ht Ha Hz).
  cbn [fst snd store loop Execution_create executions].
  assert (Hn : (loop st ++ [{| execution_id := execution_seq (store st);
                               spawned_at := now |}]) !! length (loop st)
               = Some {| execution_id := execution_seq (store st);
                         spawned_at := now |})
    by by rewrite list_lookup_middle.
  split; [done|]. split; [by rewrite lookup_insert_eq|]. split; [done|].
  split; intros Hnow; unfold Loop.resume; cbn [loop store];
    rewrite Hn; cbn [spawned_at execution_id].
  - rewrite bool_decide_eq_false_2; [done|lia].
  - rewrite bool_decide_eq_true_2; [|lia].
    erewrite _simulate_execution_Some;
      [|cbn [store executions]; apply lookup_insert_eq].
    cbn. by rewrite lookup_insert_eq.
Qed.

(* ===================================================================== *)
(** ** Tokens *)
(* ===================================================================== *)

Lemma create_access_token_eq settings now data delta :
  ∃ exp,
    AuthService.create_access_token settings now data delta =
      jwt.Signed (ALGORITHM settings) (SECRET_KEY settings)
        (<["exp" := jwt.Num exp]> data)
    ∧ exp = match delta with
            | Some d => if bool_decide (d ≠ 0%Z) then (now + d)%Z
                        else (now + 60 * ACCESS_TOKEN_EXPIRE_MINUTES settings)%Z
            | None => (now + 60 * ACCESS_TOKEN_EXPIRE_MINUTES settings)%Z
            end.
Proof. eexists. split; reflexivity. Qed.

Lemma decode_own_token settings now' exp data :
  (∀ n, data !! "sub" ≠ Some (jwt.Num n)) →
  jwt.decode now'
    (jwt.Signed (ALGORITHM settings) (SECRET_KEY settings)
       (<["exp" := jwt.Num exp]> data))
    (SECRET_KEY settings) [ALGORITHM settings] =
  if bool_decide (exp < now')%Z then Raise (JWTError "Signature has expired.")
  else Return (<["exp" := jwt.Num exp]> data).
Proof.
  intros Hsub. unfold jwt.decode.
  rewrite bool_decide_eq_false_2 by (intros H; apply H; set_solver).
  rewrite bool_decide_eq_false_2 by (intros H; by apply H).
  rewrite lookup_insert_eq. case_bool_decide; [done|].
  rewrite lookup_insert_ne by done.
  destruct (data !! "sub") as [[s|n]|] eqn:E; try done.
  by destruct (Hsub n).
Qed.

Lemma verify_own_token settings now now' username delta st :
  ∃ exp,
    exp_of (AuthService.create_access_token settings now
              {[ "sub" := jwt.Str username ]} delta) = Some exp
    ∧ AuthService.verify_token settings now'
        (AuthService.create_access_token settings now
           {[ "sub" := jwt.Str username ]} delta) st =
      if bool_decide (exp < now')%Z then
        (Raise (unauthenticated
                  "Could not validate credentials: Signature has expired."), st)
      else (Return (jwt.Str username), st).
Proof.
  destruct (create_access_token_eq settings now
              {[ "sub" := jwt.Str username ]} delta) as (exp & -> & _).
  exists exp. split.
  - unfold exp_of. by rewrite lookup_insert_eq.
  - unfold AuthService.verify_token, try_except, bind, lift.
    rewrite decode_own_token.
    2: { intros n. by rewrite lookup_singleton_eq. }
    case_bool_decide; [done|].
    rewrite lookup_insert_ne by done. by rewrite lookup_singleton_eq.
Qed.

(** [POST /login] with matching credentials answers with the token
    [create_access_token] issues for the username. *)
Lemma login_issues_token settings pwd_context now st username password user :
  users (store st) !! username = Some user →
  User.is_active user = true →
  User.deleted_at user = None →
  verify pwd_context password (User.hashed_password user) = true →
  routers.login settings pwd_context now
    {| LoginRequest.username := username;
       LoginRequest.password := password |} st =
  (Return (AuthService.create_access_token settings now
             {[ "sub" := jwt.Str username ]}
             (Some (60 * ACCESS_TOKEN_EXPIRE_MINUTES settings)%Z)), st).
Proof.
  intros Hu Hact Hdel Hpw.
  unfold routers.login, AuthService.authenticate_user, bind, query.
  cbn [LoginRequest.username LoginRequest.password store].
  rewrite (User_filter_first_Some _ _ _ Hu Hact Hdel). by rewrite Hpw.
Qed.

(** C2.  For a stored, active, non-deleted user: [POST /login] with a
    matching password answers with the token [create_access_token]
    issues for the username; a token so issued, whatever its lifetime,
    carries an expiration instant; up to that instant [verify_token]
    returns the username (and the gate resolves the user), after it
    [verify_token] raises the 401 [HTTPException] built from the
    library's message, which a router answers as 401 and not as a
    server error. *)
Theorem token_resolves_until_expiry (settings : Settings) (now : Z)
    (delta : option Z) (st : State) (username : string) (user : User.t) :
  users (store st) !! username = Some user →
  User.is_active user = true →
  User.deleted_at user = None →
  let token := AuthService.create_access_token settings now
                 {[ "sub" := jwt.Str username ]} delta in
  (∀ pwd_context password,
     verify pwd_context password (User.hashed_password user) = true →
     routers.login settings pwd_context now
       {| LoginRequest.username := username;
          LoginRequest.password := password |} st =
     (Return (AuthService.create_access_token settings now
                {[ "sub" := jwt.Str username ]}
                (Some (60 * ACCESS_TOKEN_EXPIRE_MINUTES settings)%Z)), st))
  ∧ ∃ exp, exp_of token = Some exp ∧ ∀ now',
    ((now' ≤ exp)%Z →
       AuthService.verify_token settings now' token st
         = (Return (jwt.Str username), st)
       ∧ get_current_user settings now' (Some token) st
         = (Return (username, user), st))
    ∧ ((exp < now')%Z →
       (∃ msg, AuthService.verify_token settings now' token st
               = (Raise (HTTPException 401
                           ("Could not validate credentials: " +:+ msg)
                           [("WWW-Authenticate", "Bearer")]), st))
       ∧ routers.code
           (routers.respond 200
              (AuthService.verify_token settings now' token st).1) = 401%Z).
Proof.
  intros Hu Hact Hdel token.
  split; [intros pwd_context password Hpw; by eapply login_issues_token|].
  destruct (verify_own_token settings now now username delta st)
    as (exp & Hexp & _).
  exists exp. split; [done|]. intros now'.
  destruct (verify_own_token settings now now' username delta st)
    as (exp' & Hexp' & Hv).
  assert (exp' = exp) as -> by (subst token; congruence).
  fold token in Hv. split; intros Hnow.
  - rewrite bool_decide_eq_false_2 in Hv by lia. split; [done|].
    unfold get_current_user, try_except, bind, query. rewrite Hv.
    by rewrite (User_filter_first_Some _ _ _ Hu Hact Hdel).
  - rewrite bool_decide_eq_true_2 in Hv by lia. rewrite Hv.
    split; [by eexists|done].
Qed.

(* ===================================================================== *)
(** ** The authentication gate *)
(* ===================================================================== *)

Lemma decode_Raise now token key algorithms e :
  jwt.decode now token key algorithms = Raise e → ∃ msg, e = JWTError msg.
Proof.
  unfold jwt.decode. intros H.
  repeat (case_match; simplify_eq; eauto).
Qed.

Lemma verify_token_Raise settings now token st e st' :
  AuthService.verify_token settings now token st = (Raise e, st') →
  st' = st ∧ ∃ detail, e = unauthenticated detail.
Proof.
  unfold AuthService.verify_token, try_except, bind, lift, raise, ret.
  destruct (jwt.decode now token (SECRET_KEY settings) [ALGORITHM settings])
    as [payload|e0] eqn:E.
  - destruct (payload !! "sub"); intros [= <- <-]; eauto.
  - apply decode_Raise in E as [msg ->]. intros [= <- <-]; eauto.
Qed.

Lemma verify_token_state settings now token st :
  (AuthService.verify_token settings now token st).2 = st.
Proof.
  unfold AuthService.verify_token, try_except, bind, lift, raise, ret.
  repeat (case_match; simplify_eq; try done).
Qed.

(** C3, as the code has it.  Every failure of the gate is the 401
    [HTTPException] with the [WWW-Authenticate: Bearer] header and
    leaves the state alone, but the detail names the check that failed:
    it is ["Authorization header missing or malformed"] exactly when
    there are no credentials; it is ["User not found or inactive"]
    exactly when the token verifies, whether the username is then
    unknown, soft-deleted or inactive; and when the token does not
    verify it is ["Could not validate credentials: "] followed by the
    message of the [JWTError] that [jwt.decode] raised, or
    ["Could not validate credentials - missing username"] for a decoded
    payload without ["sub"]. *)
Theorem gate_failure_is_401 (settings : Settings) (now : Z)
    (credentials : option jwt.token) (st st' : State) (e : exception) :
  get_current_user settings now credentials st = (Raise e, st') →
  st' = st
  ∧ (∃ detail, e = HTTPException 401 detail [("WWW-Authenticate", "Bearer")])
  ∧ routers.code (routers.respond 200 (Raise (A := unit) e)) = 401%Z
  ∧ (credentials = None
     ↔ e = HTTPException 401 "Authorization header missing or malformed"
             [("WWW-Authenticate", "Bearer")])
  ∧ ((∃ token subject,
        credentials = Some token
        ∧ AuthService.verify_token settings now token st = (Return subject, st))
     ↔ e = HTTPException 401 "User not found or inactive"
             [("WWW-Authenticate", "Bearer")])
  ∧ (∀ token msg,
       credentials = Some token →
       jwt.decode now token (SECRET_KEY settings) [ALGORITHM settings]
       = Raise (JWTError msg) →
       e = HTTPException 401 ("Could not validate credentials: " +:+ msg)
             [("WWW-Authenticate", "Bearer")])
  ∧ (∀ token payload,
       credentials = Some token →
       jwt.decode now token (SECRET_KEY settings) [ALGORITHM settings]
       = Return payload →
       payload !! "sub" = None →
       e = HTTPException 401
             "Could not validate credentials - missing username"
             [("WWW-Authenticate", "Bearer")]).
Proof.
  intros H. destruct credentials as [token|].
  - unfold get_current_user, AuthService.verify_token, try_except, bind,
      lift, query, raise, ret in *.
    destruct (jwt.decode now token (SECRET_KEY settings) [ALGORITHM settings])
      as [payload|e0] eqn:E.
    + destruct (payload !! "sub") as [subject|] eqn:Esub; cbn in H.
      * destruct (User_filter_first (store st) subject); [done|].
        injection H as <- <-.
        split; [done|]. split; [by eexists|]. split; [done|].
        split; [by split|]. split; [|split].
        -- split; [done|]. intros _. exists token, subject.
           by rewrite E, Esub.
        -- intros ? msg [= <-] Hd. by rewrite E in Hd.
        -- intros ? payload' [= <-] Hd Hs. rewrite E in Hd.
           injection Hd as <-. by rewrite Esub in Hs.
      * injection H as <- <-.
        split; [done|]. split; [by eexists|]. split; [done|].
        split; [by split|]. split; [|split].
        -- split; [|done]. intros (token' & subject & [= <-] & Hv).
           rewrite E, Esub in Hv. discriminate Hv.
        -- intros ? msg [= <-] Hd. by rewrite E in Hd.
        -- done.
    + destruct (decode_Raise _ _ _ _ _ E) as [msg ->]. cbn in H.
      injection H as <- <-.
      split; [done|]. split; [by eexists|]. split; [done|].
      split; [by split|]. split; [|split].
      * split; [|done]. intros (token' & subject & [= <-] & Hv).
        rewrite E in Hv. discriminate Hv.
      * intros ? msg' [= <-] Hd. rewrite E in Hd. by injection Hd as <-.
      * intros ? payload [= <-] Hd. by rewrite E in Hd.
  - injection H as <- <-.
    split; [done|]. split; [by eexists|]. split; [done|].
    split; [by split|]. split; [|split].
    + split; [|done]. by intros (token & subject & [=] & _).
    + by intros ? ? [=].
    + by intros ? ? [=].
Qed.

(* ===================================================================== *)
(** ** What leaves the executions alone *)
(* ===================================================================== *)

Lemma frames_ret {A} (a : A) : frames (ret a).
Proof. done. Qed.

Lemma frames_raise {A} e : frames (raise (A := A) e).
Proof. done. Qed.

Lemma frames_lift {A} (r : outcome A) : frames (lift r).
Proof. done. Qed.

Lemma frames_query {A} (q : DB → A) : frames (query q).
Proof. done. Qed.

Lemma frames_bind {A B} (m : M A) (k : A → M B) :
  frames m → (∀ a, frames (k a)) → frames (bind m k).
Proof.
  intros Hm Hk st. unfold bind. specialize (Hm st).
  destruct (m st) as [[a|e] st1]; simpl in *; [|done].
  destruct (Hk a st1) as (-> & -> & ->). done.
Qed.

Lemma frames_try_except {A} (m : M A) (h : exception → M A) :
  frames m → (∀ e, frames (h e)) → frames (try_except m h).
Proof.
  intros Hm Hh st. unfold try_except. specialize (Hm st).
  destruct (m st) as [[a|e] st1]; simpl in *; [done|].
  destruct (Hh e st1) as (-> & -> & ->). done.
Qed.

Lemma frames_exec (w : DB → DB) :
  (∀ db, executions (w db) = executions db
         ∧ execution_seq (w db) = execution_seq db) →
  frames (exec w).
Proof. intros H st. simpl. destruct (H (store st)). done. Qed.

Lemma frames_create (c : DB → Z * DB) :
  (∀ db, executions (c db).2 = executions db
         ∧ execution_seq (c db).2 = execution_seq db) →
  frames (create c).
Proof.
  intros H st. unfold create. specialize (H (store st)).
  destruct (c (store st)). simpl in *. destruct H. done.
Qed.

Create HintDb frames discriminated.
#[local] Hint Resolve frames_ret frames_raise frames_lift frames_query : frames.
#[local] Hint Extern 1 (frames (bind _ _)) =>
  apply frames_bind; [|intros ?] : frames.
#[local] Hint Extern 1 (frames (try_except _ _)) =>
  apply frames_try_except; [|intros ?] : frames.
#[local] Hint Extern 2 (frames (exec _)) =>
  apply frames_exec; intros ?; split; reflexivity : frames.
#[local] Hint Extern 2 (frames (create _)) =>
  apply frames_create; intros ?; split; reflexivity : frames.
#[local] Hint Extern 1 (frames (let _ := _ in _)) => cbv zeta : frames.
#[local] Hint Extern 5 (frames (match ?x with _ => _ end)) =>
  destruct x : frames.

Ltac frames := auto 20 with frames.

Lemma frames_get_current_user settings now credentials :
  frames (get_current_user settings now credentials).
Proof. unfold get_current_user, AuthService.verify_token. frames. Qed.

Lemma frames_login settings pwd_context now d :
  frames (routers.login settings pwd_context now d).
Proof. unfold routers.login, AuthService.authenticate_user. frames. Qed.

Lemma frames_get_agent_by_id i : frames (AgentService.get_agent_by_id i).
Proof. unfold AgentService.get_agent_by_id. frames. Qed.

Lemma frames_get_task_by_id i : frames (TaskService.get_task_by_id i).
Proof. unfold TaskService.get_task_by_id. frames. Qed.

#[local] Hint Resolve frames_get_current_user frames_login
  frames_get_agent_by_id frames_get_task_by_id : frames.

Lemma frames_agents settings now credentials :
  frames (routers.get_agents settings now credentials)
  ∧ (∀ d, frames (routers.create_agent settings now credentials d))
  ∧ (∀ i, frames (routers.get_agent settings now credentials i))
  ∧ (∀ i d, frames (routers.update_agent settings now credentials i d))
  ∧ (∀ i, frames (routers.delete_agent settings now credentials i)).
Proof.
  repeat apply conj; intros;
    unfold routers.get_agents, routers.create_agent, routers.get_agent,
      routers.update_agent, routers.delete_agent,
      AgentService.get_all_agents, AgentService.create_agent,
      AgentService.update_agent, AgentService.delete_agent; frames.
Qed.

Lemma frames_verify_agents_exist ids :
  frames (AgentService.verify_agents_exist ids).
Proof. unfold AgentService.verify_agents_exist. frames. Qed.

#[local] Hint Resolve frames_verify_agents_exist : frames.

Lemma frames_tasks settings now credentials :
  frames (routers.get_tasks settings now credentials)
  ∧ (∀ d, frames (routers.create_task settings now credentials d))
  ∧ (∀ i, frames (routers.get_task settings now credentials i))
  ∧ (∀ i d, frames (routers.update_task settings now credentials i d))
  ∧ (∀ i, frames (routers.delete_task settings now credentials i)).
Proof.
  repeat apply conj; intros;
    unfold routers.get_tasks, routers.create_task, routers.get_task,
      routers.update_task, routers.delete_task,
      TaskService.get_all_tasks, TaskService.create_task,
      TaskService.update_task, TaskService.delete_task; frames.
Qed.

Lemma frames_executions settings now credentials :
  frames (routers.get_executions settings now credentials)
  ∧ frames (routers.get_running_executions settings now credentials)
  ∧ (∀ i, frames (routers.get_execution settings now credentials i)).
Proof.
  repeat apply conj; intros;
    unfold routers.get_executions, routers.get_running_executions,
      routers.get_execution, ExecutionService.get_all_executions,
      ExecutionService.get_running_executions,
      ExecutionService.get_execution_by_id; frames.
Qed.

(* ===================================================================== *)
(** ** The steps of the process *)
(* ===================================================================== *)

Lemma create_execution_cases now d st :
  let r := ExecutionService.create_execution now d st in
  r.2 = st
  ∨ r.2 = {| store := (Execution_create now (ExecutionCreate.task_id d)
                         (ExecutionCreate.agent_id d) "running" (store st)).2;
             loop := loop st ++ [{| execution_id := execution_seq (store st);
                                    spawned_at := now |}] |}.
Proof.
  destruct d as [task_id agent_id]. intros r. subst r. simpl.
  destruct (task_alive_dec (store st) task_id) as [Ht|Ht].
  2: { left. by rewrite create_execution_no_task. }
  destruct (agent_alive_dec (store st) agent_id) as [Ha|Ha].
  2: { left. by rewrite create_execution_no_agent. }
  destruct (decide ((task_id, agent_id) ∈ task_agents (store st))) as [Hz|Hz].
  2: { left. by rewrite create_execution_unauthorized. }
  right. by rewrite create_execution_ok.
Qed.

Lemma frames_transition {A} (m : M A) st : frames m → transition st (m st).2.
Proof. intros H. destruct (H st) as (? & ? & ?). by apply transition_frame. Qed.

Lemma serve_transition settings pwd_context now credentials r st :
  transition st (Loop.serve settings pwd_context now credentials r st).2.
Proof.
  pose proof (frames_agents settings now credentials) as (? & ? & ? & ? & ?).
  pose proof (frames_tasks settings now credentials) as (? & ? & ? & ? & ?).
  pose proof (frames_executions settings now credentials) as (? & ? & ?).
  assert (∀ A (m : M A) c,
            (let '(o, st') := m st in (routers.respond c o, st')).2 = (m st).2)
    as Hrun by (intros A m c; by destruct (m st)).
  destruct r; unfold Loop.serve; rewrite Hrun;
    try (apply frames_transition; auto using frames_login; fail).
  (* POST /executions *)
  unfold routers.create_execution, bind.
  pose proof (frames_get_current_user settings now credentials st) as Hg.
  destruct (get_current_user settings now credentials st) as [[u|e] st1];
    simpl in Hg; destruct Hg as (Hex & Hseq & Hloop);
    [|by apply transition_frame].
  destruct (create_execution_cases now d st1) as [Heq|Heq]; simpl in Heq;
    rewrite Heq.
  - by apply transition_frame.
  - eapply transition_create; simpl; rewrite ?Hex, ?Hseq, ?Hloop; done.
Qed.

Lemma resume_transition now n st : transition st (Loop.resume now n st).
Proof.
  unfold Loop.resume.
  destruct (loop st !! n) as [c|] eqn:Hn; [|by apply transition_frame].
  case_bool_decide; [|by apply transition_frame].
  destruct (executions (store st) !! execution_id c) as [e|] eqn:He.
  - erewrite _simulate_execution_Some by done.
    by eapply transition_complete.
  - rewrite _simulate_execution_None by done.
    by eapply transition_die.
Qed.

Lemma step_transition settings pwd_context st ev :
  transition st (Loop.step settings pwd_context st ev).
Proof.
  destruct ev as [now [credentials r|n]]; simpl.
  - apply serve_transition.
  - apply resume_transition.
Qed.

Lemma running_not_terminal e : Execution.status e = "running" → ¬ terminal e.
Proof. intros H [H'|H']; rewrite H in H'; discriminate. Qed.

(** A step leaves every terminal execution as it is. *)
Lemma transition_terminal st st' i e :
  lifecycle_inv st → transition st st' →
  executions (store st) !! i = Some e → terminal e →
  executions (store st') !! i = Some e.
Proof.
  intros Hinv Htr Hi Hterm. destruct Htr as
    [Hex _ _ | now task_id agent_id Hex _ _ | now n c e' Hn He Hex _ _
    | n c Hn He Hex _ _]; rewrite Hex; try done.
  - rewrite lookup_insert_ne; [done|].
    pose proof (inv_seq st Hinv i (ltac:(eauto))). lia.
  - rewrite lookup_insert_ne; [done|]. intros <-.
    apply list_elem_of_lookup_2 in Hn.
    destruct (inv_running st Hinv c Hn) as (e0 & He0 & Hrun).
    assert (e0 = e) as -> by congruence.
    by apply running_not_terminal in Hrun.
Qed.

Lemma NoDup_fmap_middle {A B} (f : A → B) (l1 l2 : list A) (x : A) :
  NoDup (f <$> (l1 ++ x :: l2)) →
  NoDup (f <$> (l1 ++ l2)) ∧ ∀ y, y ∈ l1 ++ l2 → f y ≠ f x.
Proof.
  rewrite !fmap_app, fmap_cons, !NoDup_app, NoDup_cons.
  intros (H1 & H12 & Hx & H2). split.
  - split; [done|]. split; [|done].
    intros b Hb Hb'. apply (H12 b Hb). by right.
  - intros y Hy Heq. apply elem_of_app in Hy as [Hy|Hy].
    + apply (H12 (f x)); [|by left].
      rewrite <- Heq. apply list_elem_of_fmap. eauto.
    + apply Hx. rewrite <- Heq. apply list_elem_of_fmap. eauto.
Qed.

Lemma delete_pending (l : list Coroutine) n c :
  NoDup (execution_id <$> l) → l !! n = Some c →
  NoDup (execution_id <$> delete n l)
  ∧ (∀ c', c' ∈ delete n l → c' ∈ l ∧ execution_id c' ≠ execution_id c)
  ∧ (∀ c', c' ∈ l → execution_id c' ≠ execution_id c → c' ∈ delete n l).
Proof.
  intros Hnd Hn. rewrite delete_take_drop.
  rewrite <- (take_drop_middle l n c Hn) in Hnd.
  apply NoDup_fmap_middle in Hnd as [Hnd Hne].
  split; [done|]. split.
  - intros c' Hc'. split; [|by apply Hne].
    rewrite <- (take_drop_middle l n c Hn).
    apply elem_of_app in Hc' as [?|?]; apply elem_of_app; [by left|].
    right. by right.
  - intros c' Hc' Hneq. rewrite <- (take_drop_middle l n c Hn) in Hc'.
    apply elem_of_app in Hc' as [?|Hc']; apply elem_of_app; [by left|].
    apply elem_of_cons in Hc' as [->|?]; [done|by right].
Qed.

Lemma transition_inv st st' :
  lifecycle_inv st → transition st st' → lifecycle_inv st'.
Proof.
  intros [Hnd Hrun Hpend Hseq] Htr. destruct Htr as
    [Hex Hs Hl | now task_id agent_id Hex Hs Hl | now n c e Hn He Hex Hs Hl
    | n c Hn He Hex Hs Hl].
  - split; rewrite ?Hex, ?Hs, ?Hl; done.
  - assert (∀ c, c ∈ loop st → execution_id c ≠ execution_seq (store st))
      as Hfresh.
    { intros c Hc Heq. destruct (Hrun c Hc) as (e & He & _).
      pose proof (Hseq (execution_id c) (ltac:(eauto))). lia. }
    split; rewrite ?Hex, ?Hs, ?Hl.
    + rewrite fmap_app. apply NoDup_app. split; [done|]. split.
      * intros i Hi Hi'. simpl in Hi'. apply list_elem_of_singleton in Hi'.
        apply list_elem_of_fmap in Hi as (c & -> & Hc). by eapply Hfresh.
      * simpl. apply NoDup_singleton.
    + intros c Hc. apply elem_of_app in Hc as [Hc|Hc].
      * destruct (Hrun c Hc) as (e & He & Hst). exists e.
        rewrite lookup_insert_ne; [done|]. intros Heq. by eapply Hfresh.
      * apply list_elem_of_singleton in Hc as ->. simpl.
        rewrite lookup_insert_eq. eauto.
    + intros i e Hi Hst.
      destruct (decide (i = execution_seq (store st))) as [->|Hne].
      * eexists. split; [apply elem_of_app; right; by left|done].
      * rewrite lookup_insert_ne in Hi by done.
        destruct (Hpend i e Hi Hst) as (c & Hc & <-).
        exists c. split; [|done]. apply elem_of_app. by left.
    + intros i Hi.
      destruct (decide (i = execution_seq (store st))) as [->|Hne]; [lia|].
      rewrite lookup_insert_ne in Hi by done. specialize (Hseq i Hi). lia.
  - destruct (delete_pending _ _ _ Hnd Hn) as (Hnd' & Hin & Hout).
    split; rewrite ?Hex, ?Hs, ?Hl.
    + done.
    + intros c' Hc'. destruct (Hin c' Hc') as [Hc Hne].
      destruct (Hrun c' Hc) as (e' & He' & Hst). exists e'.
      by rewrite lookup_insert_ne.
    + intros i e' Hi Hst.
      destruct (decide (i = execution_id c)) as [->|Hne].
      * rewrite lookup_insert_eq in Hi. by inversion Hi; subst.
      * rewrite lookup_insert_ne in Hi by done.
        destruct (Hpend i e' Hi Hst) as (c' & Hc' & <-).
        exists c'. split; [|done]. by apply Hout.
    + intros i Hi. apply Hseq.
      destruct (decide (i = execution_id c)) as [->|Hne]; [eauto|].
      by rewrite lookup_insert_ne in Hi.
  - destruct (delete_pending _ _ _ Hnd Hn) as (Hnd' & Hin & Hout).
    apply list_elem_of_lookup_2 in Hn.
    destruct (Hrun c Hn) as (e & He' & _). congruence.
Qed.

Lemma initial_inv st : initial st → lifecycle_inv st.
Proof.
  intros [Hex Hl]. split; rewrite ?Hex, ?Hl.
  - constructor.
  - intros c Hc. by apply elem_of_nil in Hc.
  - intros i e Hi. by rewrite lookup_empty in Hi.
  - intros i [e Hi]. by rewrite lookup_empty in Hi.
Qed.

Lemma run_inv settings pwd_context trace st :
  lifecycle_inv st → lifecycle_inv (Loop.run settings pwd_context trace st).
Proof.
  revert st. induction trace as [|ev trace IH]; intros st Hinv; [done|].
  simpl. apply IH. eapply transition_inv; [done|]. apply step_transition.
Qed.

Lemma run_terminal settings pwd_context trace st i e :
  lifecycle_inv st →
  executions (store st) !! i = Some e → terminal e →
  executions (store (Loop.run settings pwd_context trace st)) !! i = Some e.
Proof.
  revert st. induction trace as [|ev trace IH]; intros st Hinv Hi Ht; [done|].
  simpl. apply IH; [| |done].
  - eapply transition_inv; [done|]. apply step_transition.
  - eapply transition_terminal; [done| |done|done]. apply step_transition.
Qed.

(** C5.  In a process started without executions, at every moment:
    an execution that has reached a terminal state has no completion
    step pending and is never written again, whatever requests and
    resumptions follow (same status, completion time, result and
    error); and an execution still running has exactly one completion
    step pending, so that its one terminal transition is the only write
    it ever receives. *)
Theorem terminal_execution_frozen (settings : Settings)
    (pwd_context : CryptContext) (st0 : State)
    (before after : list (Z * Loop.event)) (i : Z) (e : Execution.t) :
  initial st0 →
  let st := Loop.run settings pwd_context before st0 in
  executions (store st) !! i = Some e →
  (terminal e →
     (∀ c, c ∈ loop st → execution_id c ≠ i)
     ∧ executions (store (Loop.run settings pwd_context after st)) !! i
       = Some e)
  ∧ (Execution.status e = "running" →
     ∃ n c, loop st !! n = Some c ∧ execution_id c = i
            ∧ ∀ m c', loop st !! m = Some c' → execution_id c' = i → m = n).
Proof.
  intros Hinit st Hi.
  assert (lifecycle_inv st) as Hinv by by apply run_inv, initial_inv.
  split.
  - intros Hterm. split; [|by apply run_terminal].
    intros c Hc <-. destruct (inv_running st Hinv c Hc) as (e' & He' & Hrun).
    assert (e' = e) as -> by congruence.
    by apply running_not_terminal in Hrun.
  - intros Hrun. destruct (inv_pending st Hinv i e Hi Hrun) as (c & Hc & Hid).
    apply list_elem_of_lookup in Hc as [n Hn]. exists n, c.
    split; [done|]. split; [done|]. intros m c' Hm Hid'.
    eapply (NoDup_lookup (execution_id <$> loop st) m n i).
    + apply (inv_nodup st Hinv).
    + by rewrite list_lookup_fmap, Hm; simpl; rewrite Hid'.
    + by rewrite list_lookup_fmap, Hn; simpl; rewrite Hid.
Qed.

(* ===================================================================== *)
(** ** The statements on the concrete store *)
(* ===================================================================== *)

Lemma scenario_task_1 : task_alive scenario.db 1.
Proof. eexists. split; reflexivity. Defined.

Lemma scenario_agent_1 : agent_alive scenario.db 1.
Proof. eexists. split; reflexivity. Defined.

Lemma scenario_authorized_1_1 : authorized scenario.db 1 1.
Proof. unfold authorized. simpl. apply elem_of_singleton. reflexivity. Defined.

Lemma scenario_agent_3 : ¬ agent_alive scenario.db 3.
Proof. intros (a & Ha & Hd). vm_compute in Ha. inversion Ha; subst. discriminate. Defined.

Lemma create_execution_201_iff_witness :
  routers.code
    (routers.respond 201
       (ExecutionService.create_execution 20
          {| ExecutionCreate.task_id := 1; ExecutionCreate.agent_id := 1 |}
          scenario.st).1) = 201%Z
  ∧ task_alive scenario.db 1 ∧ agent_alive scenario.db 1
  ∧ authorized scenario.db 1 1.
Proof.
  split; [reflexivity|].
  apply (create_execution_201_iff 20
           {| ExecutionCreate.task_id := 1; ExecutionCreate.agent_id := 1 |}
           scenario.st).
  reflexivity.
Defined.

Lemma token_resolves_until_expiry_witness :
  ∃ exp, exp_of scenario.token = Some exp ∧ ∀ now',
    ((now' ≤ exp)%Z →
       AuthService.verify_token default_settings now' scenario.token scenario.st
         = (Return (jwt.Str "admin"), scenario.st)
       ∧ get_current_user default_settings now' (Some scenario.token) scenario.st
         = (Return ("admin", scenario.admin), scenario.st))
    ∧ ((exp < now')%Z →
       (∃ msg, AuthService.verify_token default_settings now' scenario.token
                 scenario.st
               = (Raise (HTTPException 401
                           ("Could not validate credentials: " +:+ msg)
                           [("WWW-Authenticate", "Bearer")]), scenario.st))
       ∧ routers.code
           (routers.respond 200
              (AuthService.verify_token default_settings now' scenario.token
                 scenario.st).1) = 401%Z).
Proof.
  refine (proj2 (token_resolves_until_expiry default_settings 10 None
                   scenario.st "admin" scenario.admin _ _ _)); reflexivity.
Defined.

(** The uniformity C3 asks for does not hold: without a header the gate
    answers with one detail, with a valid token of an unknown username
    with another. *)
Lemma gate_failures_differ : ¬ uniform_gate_failure.
Proof.
  intros H.
  specialize (H default_settings 20%Z scenario.st None
                (Some scenario.stray_token) _ _ _ _ eq_refl eq_refl).
  discriminate H.
Qed.

Lemma gate_failure_is_401_witness :
  get_current_user default_settings 20 (Some scenario.stray_token) scenario.st
  = (Raise (HTTPException 401 "User not found or inactive"
              [("WWW-Authenticate", "Bearer")]), scenario.st)
  ∧ routers.code
      (routers.respond 200
         (Raise (A := unit)
            (HTTPException 401 "User not found or inactive"
               [("WWW-Authenticate", "Bearer")]))) = 401%Z.
Proof.
  split; [reflexivity|].
  refine (proj1 (proj2 (proj2 (gate_failure_is_401 default_settings 20
                   (Some scenario.stray_token) scenario.st scenario.st _ _)))).
  reflexivity.
Defined.

Lemma execution_created_then_completed_witness :
  let r := ExecutionService.create_execution 20
             {| ExecutionCreate.task_id := 1; ExecutionCreate.agent_id := 1 |}
             scenario.st in
  Execution.status <$> executions (store r.2) !! 1%Z = Some "running"
  ∧ Execution.status <$> executions (store (Loop.resume 25 0 r.2)) !! 1%Z
    = Some "completed"
  ∧ Execution.result <$> executions (store (Loop.resume 25 0 r.2)) !! 1%Z
    = Some (Some "Task 1 completed successfully by agent 1").
Proof.
  destruct (execution_created_then_completed 20 25 1 1 scenario.st
              scenario_task_1 scenario_agent_1 scenario_authorized_1_1)
    as (_ & Hrun & _ & _ & Hdone).
  specialize (Hdone ltac:(lia)).
  cbv zeta. split; [|split].
  - change (execution_seq (store scenario.st)) with 1%Z in Hrun.
    rewrite Hrun. reflexivity.
  - change (execution_seq (store scenario.st)) with 1%Z in Hdone.
    change (length (loop scenario.st)) with 0 in Hdone.
    rewrite Hdone. reflexivity.
  - change (execution_seq (store scenario.st)) with 1%Z in Hdone.
    change (length (loop scenario.st)) with 0 in Hdone.
    rewrite Hdone. reflexivity.
Defined.

Lemma terminal_execution_frozen_witness :
  let st := Loop.run default_settings scenario.pwd_context scenario.before
              scenario.st in
  ∃ e, executions (store st) !! 1%Z = Some e
       ∧ Execution.status e = "completed"
       ∧ executions
           (store (Loop.run default_settings scenario.pwd_context
                     scenario.after st)) !! 1%Z = Some e.
Proof.
  cbv zeta.
  eexists. split; [reflexivity|]. split; [reflexivity|].
  refine (proj2 (proj1 (terminal_execution_frozen default_settings
                   scenario.pwd_context scenario.st scenario.before
                   scenario.after 1 _ _ _) _)).
  - split; reflexivity.
  - reflexivity.
  - left. reflexivity.
Defined.

Lemma second_soft_delete_404_witness :
  routers.code
    (routers.respond 204
       (AgentService.delete_agent 31 1
          (AgentService.delete_agent 30 1 scenario.st).2).1) = 404%Z
  ∧ routers.code
      (routers.respond 204
         (TaskService.delete_task 31 1
            (TaskService.delete_task 30 1 scenario.st).2).1) = 404%Z.
Proof.
  split.
  - apply (proj1 (second_soft_delete_404 30 31 1 scenario.st)
             (AgentService.delete_agent 30 1 scenario.st).2).
    reflexivity.
  - apply (proj2 (second_soft_delete_404 30 31 1 scenario.st)
             (TaskService.delete_task 30 1 scenario.st).2).
    reflexivity.
Defined.

Lemma login_wrong_password_404_witness :
  routers.login default_settings scenario.pwd_context 20
    {| LoginRequest.username := "admin"; LoginRequest.password := "guess" |}
    scenario.st
  = (Raise (HTTPException 404 "Incorrect username or password" []),
     scenario.st).
Proof.
  refine (proj1 (login_wrong_password_404 default_settings
                   scenario.pwd_context 20 scenario.st "admin" "guess"
                   scenario.admin _ _ _ _)); reflexivity.
Defined.

Lemma create_task_invalid_agent_400_witness :
  let d := {| TaskCreate.title := "T3"; TaskCreate.description := "";
              TaskCreate.supported_agent_ids := [1; 3]%Z |} in
  TaskService.create_task 20 d scenario.st =
    (Raise (HTTPException 400 "One or more agent IDs do not exist" []),
     scenario.st).
Proof.
  refine (proj1 (create_task_invalid_agent_400 20
                   {| TaskCreate.title := "T3"; TaskCreate.description := "";
                      TaskCreate.supported_agent_ids := [1; 3]%Z |}
                   scenario.st 3 _ scenario_agent_3)).
  simpl. right. left.
Defined.


Lemma verify_agents_exist_duplicate_witness :
  agent_alive scenario.db 1 ∧ agent_alive scenario.db 2
  ∧ AgentService.verify_agents_exist [1; 2; 1]%Z scenario.st
    = (Return false, scenario.st).
Proof.
  split; [exact scenario_agent_1|]. split; [eexists; split; reflexivity|].
  refine (proj1 (verify_agents_exist_duplicate [1; 2; 1]%Z scenario.st _)).
  intros H. apply NoDup_cons in H as [H _]. apply H. right. left.
Defined.

(* ===================================================================== *)
(** ** Agents: create, read, update *)
(* ===================================================================== *)

(** X1.  For a name that fits its column, [create_agent] returns the
    next primary key; the agent is then found by [get_agent_by_id] with
    the name and description given, and on a store whose counter is
    above its keys every agent stored before is found exactly as
    before. *)
Theorem create_agent_then_get (now : Z) (d : AgentCreate.t) (st : State) :
  fits 255 (AgentCreate.name d) →
  (∀ i, is_Some (agents (store st) !! i) → (i < agent_seq (store st))%Z) →
  let r := AgentService.create_agent now d st in
  let row := {| Agent.name := AgentCreate.name d;
                Agent.description := AgentCreate.description d;
                Agent.created_at := now; Agent.updated_at := now;
                Agent.deleted_at := None |} in
  r.1 = Return (agent_seq (store st))
  ∧ AgentService.get_agent_by_id (agent_seq (store st)) r.2
    = (Return row, r.2)
  ∧ (∀ j, j ≠ agent_seq (store st) →
       AgentService.get_agent_by_id j r.2
       = ((AgentService.get_agent_by_id j st).1, r.2))
  ∧ (∀ j, is_Some (agents (store st) !! j) →
       agents (store r.2) !! j = agents (store st) !! j).
Proof.
  intros _ Hseq r row. subst r row.
  unfold AgentService.create_agent, AgentService.get_agent_by_id, bind,
    create, query, ret, Agent_create, Agent_filter_first.
  cbn [fst snd store agents].
  split; [done|]. split; [by rewrite lookup_insert_eq|]. split.
  - intros j Hj. rewrite lookup_insert_ne by done.
    destruct (agents (store st) !! j) as [a|]; [|done].
    by destruct (Agent.deleted_at a).
  - intros j Hj. rewrite lookup_insert_ne; [done|].
    specialize (Hseq j Hj). lia.
Qed.


(** X3.  The listings and the lookups apply the same soft-delete
    filter: an agent (a task) is in [get_all_agents] ([get_all_tasks])
    with some row exactly when [get_agent_by_id] ([get_task_by_id])
    returns that row; both reads leave the state alone. *)
Theorem listing_agrees_with_lookup (i : Z) (st : State) :
  (∃ l, AgentService.get_all_agents st = (Return l, st)
        ∧ ∀ a, l !! i = Some a ↔
               AgentService.get_agent_by_id i st = (Return a, st))
  ∧ (∃ l, TaskService.get_all_tasks st = (Return l, st)
          ∧ ∀ t, l !! i = Some t ↔
                 TaskService.get_task_by_id i st = (Return t, st)).
Proof.
  split; eexists; (split; [reflexivity|]).
  - intros a. rewrite map_lookup_filter_Some. simpl.
    rewrite <- Agent_filter_first_Some.
    unfold AgentService.get_agent_by_id, bind, query, ret, raise. simpl.
    destruct (Agent_filter_first (store st) i); split;
      intros H; by simplify_eq.
  - intros t. rewrite map_lookup_filter_Some. simpl.
    rewrite <- Task_filter_first_Some.
    unfold TaskService.get_task_by_id, bind, query, ret, raise. simpl.
    destruct (Task_filter_first (store st) i); split;
      intros H; by simplify_eq.
Qed.

Lemma count_eq_all_alive db ids :
  NoDup ids → (∀ i, i ∈ ids → agent_alive db i) →
  size (Agent_filter_in_live db ids) = length ids.
Proof.
  intros Hnd Hall.
  rewrite <- (size_dom (D := gset Z)).
  rewrite <- (size_list_to_set (C := gset Z) ids Hnd). f_equal.
  apply set_eq. intros i. rewrite elem_of_dom, elem_of_list_to_set.
  split.
  - intros [a Ha]. by apply Agent_filter_in_live_Some in Ha as (_ & ? & _).
  - intros Hi. destruct (Hall i Hi) as (a & Ha & Hd). exists a.
    by apply Agent_filter_in_live_Some.
Qed.

Lemma verify_agents_exist_spec (ids : list Z) (st : State) :
  ∃ b, AgentService.verify_agents_exist ids st = (Return b, st)
       ∧ (b = true ↔ NoDup ids ∧ ∀ i, i ∈ ids → agent_alive (store st) i).
Proof.
  eexists. split; [apply verify_agents_exist_eq|].
  rewrite bool_decide_eq_true. split.
  - intros Heq. split.
    + destruct (decide (NoDup ids)) as [|Hdup]; [done|].
      pose proof (count_le_distinct (store st) ids).
      pose proof (size_list_to_set_dup ids Hdup). lia.
    + intros i Hi. destruct (agent_alive_dec (store st) i) as [|Hdead]; [done|].
      assert (Agent_filter_first (store st) i = None) as Hnone.
      { apply eq_None_not_Some. by rewrite Agent_filter_first_alive. }
      pose proof (count_lt_missing (store st) ids i Hi Hnone). lia.
  - intros [Hnd Hall]. by apply count_eq_all_alive.
Qed.

(** X4.  [verify_agents_exist] answers [True] exactly for a list
    without repetition all of whose ids are alive agents, and never
    changes the state. *)
Theorem verify_agents_exist_iff (ids : list Z) (st : State) :
  ∃ b, AgentService.verify_agents_exist ids st = (Return b, st)
       ∧ (b = true ↔ NoDup ids ∧ ∀ i, i ∈ ids → agent_alive (store st) i).
Proof. apply verify_agents_exist_spec. Qed.

(** X5.  A successful [delete_agent] only marks the row: the agent
    keeps its name, description and creation time and gets
    [deleted_at = now]; every other agent, every task, every junction
    row and every execution is as before, so the agent's authorizations
    survive its deletion. *)
Theorem delete_agent_marks_row (now i : Z) (st st' : State) :
  AgentService.delete_agent now i st = (Return tt, st') →
  (∃ a, agents (store st) !! i = Some a ∧ Agent.deleted_at a = None
        ∧ agents (store st') !! i
          = Some {| Agent.name := Agent.name a;
                    Agent.description := Agent.description a;
                    Agent.created_at := Agent.created_at a;
                    Agent.updated_at := now;
                    Agent.deleted_at := Some now |})
  ∧ (∀ j, j ≠ i → agents (store st') !! j = agents (store st) !! j)
  ∧ tasks (store st') = tasks (store st)
  ∧ task_agents (store st') = task_agents (store st)
  ∧ executions (store st') = executions (store st)
  ∧ users (store st') = users (store st)
  ∧ loop st' = loop st.
Proof.
  unfold AgentService.delete_agent, AgentService.get_agent_by_id,
    bind, query, exec, ret, raise; simpl.
  destruct (Agent_filter_first (store st) i) as [a|] eqn:E; [|done].
  apply Agent_filter_first_Some in E as [Ha Hd].
  intros [= <-]. simpl. split; [|split; [|done]].
  - exists a. by rewrite lookup_insert_eq.
  - intros j Hj. by rewrite lookup_insert_ne.
Qed.

(* ===================================================================== *)
(** ** Tasks and their authorized agents *)
(* ===================================================================== *)

Lemma elem_of_Task_agents_add tid ags db t a :
  (t, a) ∈ task_agents (Task_agents_add tid ags db) ↔
  (t, a) ∈ task_agents db ∨ (t = tid ∧ is_Some (ags !! a)).
Proof.
  unfold Task_agents_add, set_task_agents. cbn [task_agents].
  rewrite elem_of_union, elem_of_map. setoid_rewrite elem_of_dom.
  split; intros [?|H]; auto.
  - destruct H as (k & [= -> ->] & ?). auto.
  - destruct H as [-> ?]. right. eauto.
Qed.

Lemma elem_of_Task_agents_clear tid db t a :
  (t, a) ∈ task_agents (Task_agents_clear tid db) ↔
  (t, a) ∈ task_agents db ∧ t ≠ tid.
Proof.
  unfold Task_agents_clear, set_task_agents. cbn [task_agents].
  rewrite elem_of_filter. simpl. tauto.
Qed.

Lemma fetched_Permutation tid db ids :
  NoDup ids →
  (∀ a, a ∈ ids ↔ authorized db tid a ∧ is_Some (agents db !! a)) →
  ids_of (Task_agents_all tid db) ≡ₚ ids.
Proof.
  intros Hnd Hiff. apply NoDup_Permutation; [|done|].
  - unfold ids_of. apply NoDup_fst_map_to_list.
  - intros a. by rewrite elem_of_Task_agents_all, Hiff.
Qed.

(** X6.  [create_task] with a title that fits its column and a list of
    distinct alive agents (on a store where no junction row yet carries
    the key the task will get) returns the new task's key with the
    agents read back: these are the ids given, up to order; the new
    task is pending and alive, its authorized set is exactly the ids
    given, and the authorized sets of the other tasks are unchanged. *)
Theorem create_task_then_read (now : Z) (d : TaskCreate.t) (st : State) :
  let ids := TaskCreate.supported_agent_ids d in
  let tid := task_seq (store st) in
  fits 255 (TaskCreate.title d) →
  NoDup ids →
  (∀ i, i ∈ ids → agent_alive (store st) i) →
  (∀ a, (tid, a) ∉ task_agents (store st)) →
  ∃ fetched st',
    TaskService.create_task now d st = (Return (tid, fetched), st')
    ∧ fetched ≡ₚ ids
    ∧ tasks (store st') !! tid
      = Some {| Task.title := TaskCreate.title d;
                Task.description := TaskCreate.description d;
                Task.status := "pending";
                Task.created_at := now; Task.updated_at := now;
                Task.deleted_at := None |}
    ∧ (∀ a, authorized (store st') tid a ↔ a ∈ ids)
    ∧ (∀ t a, t ≠ tid →
         (authorized (store st') t a ↔ authorized (store st) t a)).
Proof.
  intros ids tid _ Hnd Hall Hfresh.
  destruct (verify_agents_exist_spec ids st) as (b & Hv & Hb).
  assert (b = true) as -> by by apply Hb.
  unfold TaskService.create_task, bind. fold ids. rewrite Hv. cbn [negb].
  unfold create, query, exec, ret. cbn [Task_create fst snd store loop].
  set (db1 := {| users := users (store st); agents := agents (store st);
                 tasks := _; task_agents := task_agents (store st);
                 executions := _; agent_seq := _; task_seq := _;
                 execution_seq := _ |}).
  set (db2 := Task_agents_add (task_seq (store st)) (Agent_filter_in db1 ids) db1).
  assert (Hauth : ∀ t a, authorized db2 t a ↔
            authorized (store st) t a ∨ (t = tid ∧ a ∈ ids)).
  { intros t a. unfold authorized, db2. rewrite elem_of_Task_agents_add.
    unfold is_Some. setoid_rewrite Agent_filter_in_Some. subst db1.
    cbn [task_agents agents]. split; intros [?|[-> H]]; auto.
    - destruct H as (? & ? & ?). auto.
    - right. split; [done|]. destruct (Hall a H) as (x & ? & _). eauto. }
  exists (ids_of (Task_agents_all tid db2)), {| store := db2; loop := loop st |}.
  split; [reflexivity|]. cbn [store].
  assert (Htid : ∀ a, authorized db2 tid a ↔ a ∈ ids).
  { intros a. rewrite Hauth. split; [|by auto].
    intros [H|[_ ?]]; [|done]. by destruct (Hfresh a). }
  split; [|split; [|split; [done|]]].
  - apply fetched_Permutation; [done|]. intros a. rewrite Htid.
    split; [|tauto]. intros Ha. split; [done|].
    destruct (Hall a Ha) as (x & ? & _). subst db2 db1. simpl. eauto.
  - subst db2 db1. simpl. by rewrite lookup_insert_eq.
  - intros t a Ht. rewrite Hauth. split; [|by auto].
    intros [?|[? _]]; done.
Qed.







(** X10.  A successful [delete_task] only marks the row with
    [deleted_at = now]: the junction rows of the task, the executions,
    the agents and every other task are as before. *)
Theorem delete_task_marks_row (now i : Z) (st st' : State) :
  TaskService.delete_task now i st = (Return tt, st') →
  (∃ t, tasks (store st) !! i = Some t ∧ Task.deleted_at t = None
        ∧ tasks (store st') !! i
          = Some {| Task.title := Task.title t;
                    Task.description := Task.description t;
                    Task.status := Task.status t;
                    Task.created_at := Task.created_at t;
                    Task.updated_at := now;
                    Task.deleted_at := Some now |})
  ∧ (∀ j, j ≠ i → tasks (store st') !! j = tasks (store st) !! j)
  ∧ task_agents (store st') = task_agents (store st)
  ∧ executions (store st') = executions (store st)
  ∧ agents (store st') = agents (store st)
  ∧ users (store st') = users (store st)
  ∧ loop st' = loop st.
Proof.
  unfold TaskService.delete_task, TaskService.get_task_by_id,
    bind, query, exec, ret, raise; simpl.
  destruct (Task_filter_first (store st) i) as [t|] eqn:E; [|done].
  apply Task_filter_first_Some in E as [Ht Hd].
  intros [= <-]. simpl. split; [|split; [|done]].
  - exists t. by rewrite lookup_insert_eq.
  - intros j Hj. by rewrite lookup_insert_ne.
Qed.

Lemma soft_deleted_not_alive_agent db i :
  agent_soft_deleted db i → ¬ agent_alive db i.
Proof.
  intros (a & Ha & t & Hd) (a' & Ha' & Hd'). congruence.
Qed.

Lemma soft_deleted_not_alive_task db i :
  task_soft_deleted db i → ¬ task_alive db i.
Proof.
  intros (a & Ha & t & Hd) (a' & Ha' & Hd'). congruence.
Qed.

Lemma delete_agent_state now i st st' :
  AgentService.delete_agent now i st = (Return tt, st') →
  task_agents (store st') = task_agents (store st)
  ∧ tasks (store st') = tasks (store st)
  ∧ executions (store st') = executions (store st).
Proof.
  unfold AgentService.delete_agent, AgentService.get_agent_by_id,
    bind, query, exec, ret, raise; simpl.
  destruct (Agent_filter_first (store st) i) as [a|]; [|done].
  by intros [= <-].
Qed.

Lemma delete_task_state now i st st' :
  TaskService.delete_task now i st = (Return tt, st') →
  task_agents (store st') = task_agents (store st)
  ∧ agents (store st') = agents (store st)
  ∧ executions (store st') = executions (store st).
Proof.
  unfold TaskService.delete_task, TaskService.get_task_by_id,
    bind, query, exec, ret, raise; simpl.
  destruct (Task_filter_first (store st) i) as [a|]; [|done].
  by intros [= <-].
Qed.

(** X11.  Soft-deleting the agent or the task of an authorized pair
    keeps the pair in the junction table, and yet an execution of the
    pair is from then on answered 404 and not created; an execution
    stored earlier is still found by [get_execution_by_id]. *)
Theorem delete_then_create_execution_404 (now now' tid a : Z)
    (st st' : State) :
  authorized (store st) tid a →
  AgentService.delete_agent now a st = (Return tt, st')
  ∨ TaskService.delete_task now tid st = (Return tt, st') →
  let r := ExecutionService.create_execution now'
             {| ExecutionCreate.task_id := tid;
                ExecutionCreate.agent_id := a |} st' in
  authorized (store st') tid a
  ∧ routers.code (routers.respond 201 r.1) = 404%Z
  ∧ r.2 = st'
  ∧ ∀ i, ExecutionService.get_execution_by_id i st'
         = ((ExecutionService.get_execution_by_id i st).1, st').
Proof.
  intros Hauth Hdel r.
  assert (task_agents (store st') = task_agents (store st)
          ∧ executions (store st') = executions (store st)
          ∧ (¬ task_alive (store st') tid ∨ ¬ agent_alive (store st') a))
    as (Hj & He & Hdead).
  { destruct Hdel as [Hdel|Hdel].
    - destruct (delete_agent_state _ _ _ _ Hdel) as (? & _ & ?).
      apply delete_agent_Return in Hdel as [_ Hdel].
      split; [done|]. split; [done|]. right.
      by apply soft_deleted_not_alive_agent.
    - destruct (delete_task_state _ _ _ _ Hdel) as (? & _ & ?).
      apply delete_task_Return in Hdel as [_ Hdel].
      split; [done|]. split; [done|]. left.
      by apply soft_deleted_not_alive_task. }
  split; [by unfold authorized; rewrite Hj|].
  assert (routers.code (routers.respond 201 r.1) = 404%Z ∧ r.2 = st') as [? ?].
  { subst r. destruct (task_alive_dec (store st') tid) as [Ht|Ht].
    - destruct Hdead as [?|Ha]; [done|].
      by rewrite create_execution_no_agent.
    - by rewrite create_execution_no_task. }
  split; [done|]. split; [done|]. intros i.
  unfold ExecutionService.get_execution_by_id, bind, query. rewrite He.
  by destruct (executions (store st) !! i).
Qed.

(* ===================================================================== *)
(** ** Executions over time *)
(* ===================================================================== *)

(** X12.  Executions accumulate: asking twice for an execution of the
    same authorized pair creates two executions with consecutive keys,
    both running, each with its own pending coroutine, and (the counter
    being above the stored keys) every execution stored before is kept
    as it was. *)
Theorem create_execution_twice (now now' tid a : Z) (st : State) :
  task_alive (store st) tid → agent_alive (store st) a →
  authorized (store st) tid a →
  (∀ i, is_Some (executions (store st) !! i) →
        (i < execution_seq (store st))%Z) →
  let d := {| ExecutionCreate.task_id := tid;
              ExecutionCreate.agent_id := a |} in
  let r1 := ExecutionService.create_execution now d st in
  let r2 := ExecutionService.create_execution now' d r1.2 in
  let i := execution_seq (store st) in
  r1.1 = Return i ∧ r2.1 = Return (i + 1)%Z
  ∧ executions (store r2.2) !! i = Some (fresh_execution now tid a)
  ∧ executions (store r2.2) !! (i + 1)%Z = Some (fresh_execution now' tid a)
  ∧ (∀ j e, executions (store st) !! j = Some e →
            executions (store r2.2) !! j = Some e)
  ∧ loop r2.2 = loop st ++ [ {| execution_id := i; spawned_at := now |};
                             {| execution_id := (i + 1)%Z;
                                spawned_at := now' |} ].
Proof.
  intros Ht Ha Hz Hseq d r1 r2 i. subst r2 r1 d i.
  rewrite (create_execution_ok now tid a st Ht Ha Hz). cbn [fst snd].
  rewrite create_execution_ok; [|done..].
  cbn [fst snd store loop Execution_create executions execution_seq].
  split; [done|]. split; [done|]. split.
  { rewrite lookup_insert_ne by lia. by rewrite lookup_insert_eq. }
  split; [by rewrite lookup_insert_eq|]. split.
  - intros j e Hj. pose proof (Hseq j (ltac:(eauto))).
    rewrite !lookup_insert_ne by lia. done.
  - by rewrite <- app_assoc.
Qed.

(** X13.  The completion step has no guard on the parents: an execution
    created for an alive task is completed by its coroutine even when
    the task has been soft-deleted in between, and the task stays
    soft-deleted. *)
Theorem completion_after_task_delete (now now1 now2 tid a : Z) (st : State) :
  task_alive (store st) tid → agent_alive (store st) a →
  authorized (store st) tid a →
  (now + 5 ≤ now2)%Z →
  let d := {| ExecutionCreate.task_id := tid;
              ExecutionCreate.agent_id := a |} in
  let st1 := (ExecutionService.create_execution now d st).2 in
  let r := TaskService.delete_task now1 tid st1 in
  let st3 := Loop.resume now2 (length (loop st)) r.2 in
  r.1 = Return tt
  ∧ task_soft_deleted (store st3) tid
  ∧ executions (store st3) !! execution_seq (store st)
    = Some (completed now2 (fresh_execution now tid a)).
Proof.
  intros Ht Ha Hz Hnow d st1 r st3. subst st3 r st1 d.
  rewrite (create_execution_ok now tid a st Ht Ha Hz). cbn [fst snd].
  destruct Ht as (t & Ht & Hd).
  unfold TaskService.delete_task, TaskService.get_task_by_id, bind, query,
    exec, ret, Task_filter_first.
  cbn [store Execution_create snd tasks]. rewrite Ht, Hd. cbn [fst snd].
  split; [done|].
  unfold Loop.resume. cbn [loop store].
  rewrite list_lookup_middle by done. cbn [spawned_at execution_id].
  rewrite bool_decide_eq_true_2 by lia.
  erewrite _simulate_execution_Some;
    [|cbn; apply lookup_insert_eq].
  unfold task_soft_deleted. cbn. split.
  - eexists. rewrite lookup_insert_eq. split; [done|]. simpl. eauto.
  - by rewrite lookup_insert_eq.
Qed.

Lemma transition_shape st st' :
  (∀ i e, executions (store st) !! i = Some e → execution_shape e) →
  transition st st' →
  ∀ i e, executions (store st') !! i = Some e → execution_shape e.
Proof.
  intros Hsh Htr i e. destruct Htr as
    [Hex _ _ | now task_id agent_id Hex _ _ | now n c e' Hn He Hex _ _
    | n c Hn He Hex _ _]; rewrite Hex; try apply Hsh.
  - destruct (decide (i = execution_seq (store st))) as [->|Hne].
    + rewrite lookup_insert_eq. intros [= <-]. left. done.
    + rewrite lookup_insert_ne by done. apply Hsh.
  - destruct (decide (i = execution_id c)) as [->|Hne].
    + rewrite lookup_insert_eq. intros [= <-]. right. simpl.
      split; [done|]. split; [eauto|]. split; [eauto|].
      destruct (Hsh _ _ He) as [(_ & _ & _ & ?)|(_ & _ & _ & ?)]; done.
    + rewrite lookup_insert_ne by done. apply Hsh.
Qed.

Lemma run_shape settings pwd_context trace st :
  (∀ i e, executions (store st) !! i = Some e → execution_shape e) →
  ∀ i e, executions (store (Loop.run settings pwd_context trace st)) !! i
         = Some e → execution_shape e.
Proof.
  revert st. induction trace as [|ev trace IH]; intros st Hsh; [done|].
  simpl. apply IH. eapply transition_shape; [done|]. apply step_transition.
Qed.

(** X14.  In a process started without executions every execution, at
    every moment, is either running with completion time, result and
    error all null, or completed with a completion time, a result and
    no error: no request and no coroutine ever produces the status
    ["failed"] or sets [error_message]. *)
Theorem executions_running_or_completed (settings : Settings)
    (pwd_context : CryptContext) (st0 : State)
    (trace : list (Z * Loop.event)) (i : Z) (e : Execution.t) :
  initial st0 →
  executions (store (Loop.run settings pwd_context trace st0)) !! i = Some e →
  execution_shape e
  ∧ Execution.status e ≠ "failed" ∧ Execution.error_message e = None.
Proof.
  intros [Hex _] Hi.
  assert (execution_shape e) as Hsh.
  { eapply run_shape; [|done]. intros j e'. by rewrite Hex, lookup_empty. }
  split; [done|].
  destruct Hsh as [(-> & _ & _ & ?)|(-> & _ & _ & ?)]; done.
Qed.

(** X15.  In a process started without executions the listing of
    running executions and the event loop agree at every moment: an
    execution is listed by [get_running_executions] exactly when a
    coroutine for it is pending. *)
Theorem running_listing_is_pending (settings : Settings)
    (pwd_context : CryptContext) (st0 : State)
    (trace : list (Z * Loop.event)) (i : Z) :
  initial st0 →
  let st := Loop.run settings pwd_context trace st0 in
  ∃ l, ExecutionService.get_running_executions st = (Return l, st)
       ∧ (is_Some (l !! i) ↔ ∃ c, c ∈ loop st ∧ execution_id c = i).
Proof.
  intros Hinit st.
  assert (lifecycle_inv st) as Hinv by by apply run_inv, initial_inv.
  eexists. split; [reflexivity|]. unfold is_Some.
  setoid_rewrite map_lookup_filter_Some. simpl. split.
  - intros (e & He & Hrun). by eapply inv_pending.
  - intros (c & Hc & <-).
    destruct (inv_running st Hinv c Hc) as (e & He & Hrun). eauto.
Qed.

(* ===================================================================== *)
(** ** Rows are never removed *)
(* ===================================================================== *)

Lemma extends_refl st : extends st st.
Proof. by split. Qed.

Lemma extends_trans st1 st2 st3 :
  extends st1 st2 → extends st2 st3 → extends st1 st3.
Proof.
  intros [A1 T1 E1 U1] [A2 T2 E2 U2]. split; [auto..|congruence].
Qed.

Lemma retains_ret {A} (a : A) : retains (ret a).
Proof. intros st. apply extends_refl. Qed.

Lemma retains_raise {A} e : retains (raise (A := A) e).
Proof. intros st. apply extends_refl. Qed.

Lemma retains_lift {A} (r : outcome A) : retains (lift r).
Proof. intros st. apply extends_refl. Qed.

Lemma retains_query {A} (q : DB → A) : retains (query q).
Proof. intros st. apply extends_refl. Qed.

Lemma retains_create_task_on_loop c : retains (create_task_on_loop c).
Proof. intros st. by split. Qed.

Lemma retains_bind {A B} (m : M A) (k : A → M B) :
  retains m → (∀ a, retains (k a)) → retains (bind m k).
Proof.
  intros Hm Hk st. unfold bind. specialize (Hm st).
  destruct (m st) as [[a|e] st1]; simpl in *; [|done].
  eapply extends_trans; [done|]. apply Hk.
Qed.

Lemma retains_try_except {A} (m : M A) (h : exception → M A) :
  retains m → (∀ e, retains (h e)) → retains (try_except m h).
Proof.
  intros Hm Hh st. unfold try_except. specialize (Hm st).
  destruct (m st) as [[a|e] st1]; simpl in *; [done|].
  eapply extends_trans; [done|]. apply Hh.
Qed.

Lemma retains_exec (w : DB → DB) :
  (∀ db,
     (∀ i, is_Some (agents db !! i) → is_Some (agents (w db) !! i))
     ∧ (∀ i, is_Some (tasks db !! i) → is_Some (tasks (w db) !! i))
     ∧ (∀ i, is_Some (executions db !! i) → is_Some (executions (w db) !! i))
     ∧ users (w db) = users db) →
  retains (exec w).
Proof. intros H st. destruct (H (store st)) as (? & ? & ? & ?). by split. Qed.

Lemma retains_create (c : DB → Z * DB) :
  (∀ db,
     (∀ i, is_Some (agents db !! i) → is_Some (agents (c db).2 !! i))
     ∧ (∀ i, is_Some (tasks db !! i) → is_Some (tasks (c db).2 !! i))
     ∧ (∀ i, is_Some (executions db !! i) →
             is_Some (executions (c db).2 !! i))
     ∧ users (c db).2 = users db) →
  retains (create c).
Proof.
  intros H st. unfold create. specialize (H (store st)).
  destruct (c (store st)). simpl in *. destruct H as (? & ? & ? & ?). by split.
Qed.

Ltac retains_write :=
  intros ?; simpl; repeat apply conj; try done;
  intros ? ?; apply lookup_insert_is_Some'; auto.

Create HintDb retains discriminated.
#[local] Hint Resolve retains_ret retains_raise retains_lift retains_query
  retains_create_task_on_loop : retains.
#[local] Hint Extern 1 (retains (bind _ _)) =>
  apply retains_bind; [|intros ?] : retains.
#[local] Hint Extern 1 (retains (try_except _ _)) =>
  apply retains_try_except; [|intros ?] : retains.
#[local] Hint Extern 2 (retains (exec _)) =>
  apply retains_exec; retains_write : retains.
#[local] Hint Extern 2 (retains (create _)) =>
  apply retains_create; retains_write : retains.
#[local] Hint Extern 1 (retains (let _ := _ in _)) => cbv zeta : retains.
#[local] Hint Extern 5 (retains (match ?x with _ => _ end)) =>
  destruct x : retains.

Lemma retains_get_current_user settings now credentials :
  retains (get_current_user settings now credentials).
Proof. unfold get_current_user, AuthService.verify_token. auto 20 with retains. Qed.

#[local] Hint Resolve retains_get_current_user : retains.

Lemma retains_serve settings pwd_context now credentials r st :
  extends st (Loop.serve settings pwd_context now credentials r st).2.
Proof.
  assert (∀ A (m : M A) c,
            (let '(o, st') := m st in (routers.respond c o, st')).2 = (m st).2)
    as Hrun by (intros A m c; by destruct (m st)).
  destruct r; unfold Loop.serve; rewrite Hrun;
    clear Hrun;
    match goal with |- extends st (?m st).2 =>
      revert st; change (retains m) end;
    unfold routers.login, AuthService.authenticate_user,
      routers.get_agents, routers.create_agent, routers.get_agent,
      routers.update_agent, routers.delete_agent,
      AgentService.get_all_agents, AgentService.create_agent,
      AgentService.update_agent, AgentService.delete_agent,
      AgentService.get_agent_by_id, AgentService.verify_agents_exist,
      routers.get_tasks, routers.create_task, routers.get_task,
      routers.update_task, routers.delete_task,
      TaskService.get_all_tasks, TaskService.create_task,
      TaskService.update_task, TaskService.delete_task,
      TaskService.get_task_by_id,
      routers.create_execution, routers.get_executions,
      routers.get_running_executions, routers.get_execution,
      ExecutionService.create_execution, ExecutionService.get_all_executions,
      ExecutionService.get_running_executions,
      ExecutionService.get_execution_by_id;
    unfold AgentService.verify_agents_exist, AgentService.get_agent_by_id,
      TaskService.get_task_by_id;
    auto 30 with retains.
Qed.

Lemma retains_resume now n st : extends st (Loop.resume now n st).
Proof.
  unfold Loop.resume.
  destruct (loop st !! n) as [c|]; [|apply extends_refl].
  case_bool_decide; [|apply extends_refl].
  assert (retains (ExecutionService._simulate_execution now (execution_id c)))
    as Hsim
    by (unfold ExecutionService._simulate_execution; auto 20 with retains).
  eapply extends_trans; [|apply Hsim]. by split.
Qed.

(** X16.  Nothing the process does removes a row: after any sequence
    of requests and coroutine resumptions every agent, task and
    execution that was stored is still stored (deleting is only ever
    soft), and the users table is exactly as it was. *)
Theorem rows_never_removed (settings : Settings) (pwd_context : CryptContext)
    (trace : list (Z * Loop.event)) (st : State) :
  extends st (Loop.run settings pwd_context trace st).
Proof.
  revert st. induction trace as [|[now ev] trace IH]; intros st.
  - apply extends_refl.
  - simpl. eapply extends_trans; [|apply IH].
    destruct ev as [credentials r|n]; simpl.
    + apply retains_serve.
    + apply retains_resume.
Qed.

(* ===================================================================== *)
(** ** Reads do not write *)
(* ===================================================================== *)

Lemma readonly_ret {A} (a : A) : readonly (ret a).
Proof. done. Qed.

Lemma readonly_raise {A} e : readonly (raise (A := A) e).
Proof. done. Qed.

Lemma readonly_lift {A} (r : outcome A) : readonly (lift r).
Proof. done. Qed.

Lemma readonly_query {A} (q : DB → A) : readonly (query q).
Proof. done. Qed.

Lemma readonly_bind {A B} (m : M A) (k : A → M B) :
  readonly m → (∀ a, readonly (k a)) → readonly (bind m k).
Proof.
  intros Hm Hk st. unfold bind. specialize (Hm st).
  destruct (m st) as [[a|e] st1]; simpl in *; subst; [apply Hk|done].
Qed.

Lemma readonly_try_except {A} (m : M A) (h : exception → M A) :
  readonly m → (∀ e, readonly (h e)) → readonly (try_except m h).
Proof.
  intros Hm Hh st. unfold try_except. specialize (Hm st).
  destruct (m st) as [[a|e] st1]; simpl in *; subst; [done|apply Hh].
Qed.

Create HintDb readonly discriminated.
#[local] Hint Resolve readonly_ret readonly_raise readonly_lift
  readonly_query : readonly.
#[local] Hint Extern 1 (readonly (bind _ _)) =>
  apply readonly_bind; [|intros ?] : readonly.
#[local] Hint Extern 1 (readonly (try_except _ _)) =>
  apply readonly_try_except; [|intros ?] : readonly.
#[local] Hint Extern 1 (readonly (let _ := _ in _)) => cbv zeta : readonly.
#[local] Hint Extern 5 (readonly (match ?x with _ => _ end)) =>
  destruct x : readonly.

Lemma readonly_get_current_user settings now credentials :
  readonly (get_current_user settings now credentials).
Proof.
  unfold get_current_user, AuthService.verify_token. auto 20 with readonly.
Qed.

Lemma readonly_login settings pwd_context now d :
  readonly (routers.login settings pwd_context now d).
Proof.
  unfold routers.login, AuthService.authenticate_user. auto 20 with readonly.
Qed.

#[local] Hint Resolve readonly_get_current_user readonly_login : readonly.

Lemma readonly_reads settings now credentials :
  readonly (routers.get_agents settings now credentials)
  ∧ (∀ i, readonly (routers.get_agent settings now credentials i))
  ∧ readonly (routers.get_tasks settings now credentials)
  ∧ (∀ i, readonly (routers.get_task settings now credentials i))
  ∧ readonly (routers.get_executions settings now credentials)
  ∧ readonly (routers.get_running_executions settings now credentials)
  ∧ (∀ i, readonly (routers.get_execution settings now credentials i)).
Proof.
  repeat apply conj; intros;
    unfold routers.get_agents, routers.get_agent, routers.get_tasks,
      routers.get_task, routers.get_executions,
      routers.get_running_executions, routers.get_execution,
      AgentService.get_all_agents, AgentService.get_agent_by_id,
      TaskService.get_all_tasks, TaskService.get_task_by_id,
      ExecutionService.get_all_executions,
      ExecutionService.get_running_executions,
      ExecutionService.get_execution_by_id; auto 20 with readonly.
Qed.

(** What a protected handler leaves behind: the state as it was when
    the gate raises, the state of the service otherwise. *)
Lemma protected_state {A} settings now credentials (m : M A) st :
  (get_current_user settings now credentials;; m) st
  = match (get_current_user settings now credentials st).1 with
    | Return _ => m st
    | Raise e => (Raise e, st)
    end.
Proof.
  unfold bind.
  pose proof (readonly_get_current_user settings now credentials st) as H.
  destruct (get_current_user settings now credentials st) as [[u|e] st1].
  all: simpl in *; by subst.
Qed.

Lemma reads_state (settings : Settings) (pwd_context : CryptContext)
    (now : Z) (credentials : option jwt.token) (r : Loop.request)
    (st : State) :
  match r with
  | Loop.Login _ | Loop.GetAgents | Loop.GetAgent _ | Loop.GetTasks
  | Loop.GetTask _ | Loop.GetExecutions | Loop.GetRunningExecutions
  | Loop.GetExecution _ =>
      (Loop.serve settings pwd_context now credentials r st).2 = st
  | _ => True
  end.
Proof.
  pose proof (readonly_reads settings now credentials)
    as (? & ? & ? & ? & ? & ? & ?).
  assert (∀ A (m : M A) c, readonly m →
            (let '(o, st') := m st in (routers.respond c o, st')).2 = st)
    as Hrun.
  { intros A m c Hm. specialize (Hm st). by destruct (m st). }
  destruct r; try done; unfold Loop.serve; apply Hrun;
    auto using readonly_login.
Qed.

(** X17.  Reading never writes: [POST /login] and the seven GET
    handlers return the state exactly as they found it, with or
    without valid credentials, whatever they answer. *)
Theorem reads_leave_state (settings : Settings) (pwd_context : CryptContext)
    (now : Z) (credentials : option jwt.token) (r : Loop.request)
    (st : State) :
  match r with
  | Loop.Login _ | Loop.GetAgents | Loop.GetAgent _ | Loop.GetTasks
  | Loop.GetTask _ | Loop.GetExecutions | Loop.GetRunningExecutions
  | Loop.GetExecution _ =>
      (Loop.serve settings pwd_context now credentials r st).2 = st
  | _ => True
  end.
Proof. apply reads_state. Qed.

(** X18.  Without valid credentials nothing happens: when the gate
    raises, every handler other than [POST /login] answers 401 with the
    [WWW-Authenticate: Bearer] header and leaves the state untouched,
    whatever the request asks for. *)
Theorem unauthenticated_request_401 (settings : Settings)
    (pwd_context : CryptContext) (now : Z) (credentials : option jwt.token)
    (r : Loop.request) (st st1 : State) (e : exception) :
  get_current_user settings now credentials st = (Raise e, st1) →
  (∀ d, r ≠ Loop.Login d) →
  ∃ detail,
    Loop.serve settings pwd_context now credentials r st
    = ({| routers.code := 401;
          routers.error := Some (detail, [("WWW-Authenticate", "Bearer")]) |},
       st).
Proof.
  intros Hg Hr.
  assert (st1 = st ∧ ∃ detail, e = unauthenticated detail) as [-> [detail ->]].
  { destruct credentials as [token|]; [|by inversion Hg; eauto].
    unfold get_current_user, try_except, bind, query, raise, ret in Hg.
    destruct (AuthService.verify_token settings now token st)
      as [[subject|e0] st0] eqn:E.
    - pose proof (verify_token_state settings now token st) as Hst.
      rewrite E in Hst. simpl in Hst. subst st0.
      destruct (User_filter_first (store st) subject); inversion Hg; eauto.
    - apply verify_token_Raise in E as [-> [d ->]].
      inversion Hg; eauto. }
  exists detail.
  destruct r; try (by destruct (Hr d)); unfold Loop.serve;
    unfold routers.get_agents, routers.create_agent, routers.get_agent,
      routers.update_agent, routers.delete_agent, routers.get_tasks,
      routers.create_task, routers.get_task, routers.update_task,
      routers.delete_task, routers.create_execution, routers.get_executions,
      routers.get_running_executions, routers.get_execution;
    rewrite protected_state, Hg; reflexivity.
Qed.

(* ===================================================================== *)
(** ** Keys, junction rows and soft-deleted rows over time *)
(* ===================================================================== *)

Lemma frozen_refl db : frozen db db.
Proof. by split. Qed.

Lemma frozen_trans db1 db2 db3 : frozen db1 db2 → frozen db2 db3 → frozen db1 db3.
Proof. intros [A1 T1] [A2 T2]. split; eauto. Qed.

Lemma is_Some_insert_lt {A} (m : gmap Z A) (k : Z) (v : A) (bound : Z) i :
  (k < bound)%Z → (∀ j, is_Some (m !! j) → (j < bound)%Z) →
  is_Some (<[k := v]> m !! i) → (i < bound)%Z.
Proof.
  intros Hk Hm Hi. apply lookup_insert_is_Some' in Hi as [<-|Hi]; auto.
Qed.

Lemma Agent_save_ok now i a a' db :
  store_ok db → agents db !! i = Some a → Agent.deleted_at a = None →
  store_ok (Agent_save now i a' db) ∧ frozen db (Agent_save now i a' db).
Proof.
  intros [Ha Ht He Hj] Hi Hd. split; [split|split]; simpl; try done.
  - intros j. apply is_Some_insert_lt; [apply Ha; eauto|done].
  - intros j x Hj' [t Hdel]. rewrite lookup_insert_ne; [done|].
    intros <-. congruence.
Qed.

Lemma Task_save_ok now i t t' db :
  store_ok db → tasks db !! i = Some t → Task.deleted_at t = None →
  store_ok (Task_save now i t' db) ∧ frozen db (Task_save now i t' db).
Proof.
  intros [Ha Ht He Hj] Hi Hd. split; [split|split]; simpl; try done.
  - intros j. apply is_Some_insert_lt; [apply Ht; eauto|done].
  - intros t0 a0 Hin. apply lookup_insert_is_Some'. eauto.
  - intros j x Hj' [d Hdel]. rewrite lookup_insert_ne; [done|].
    intros <-. congruence.
Qed.

Lemma Agent_create_ok now name description db :
  store_ok db →
  store_ok (Agent_create now name description db).2
  ∧ frozen db (Agent_create now name description db).2.
Proof.
  intros [Ha Ht He Hj]. split; [split|split]; simpl; try done.
  - intros j Hj'. apply lookup_insert_is_Some' in Hj' as [<-|Hj']; [lia|].
    specialize (Ha j Hj'). lia.
  - intros j x Hj' _. rewrite lookup_insert_ne; [done|].
    intros <-. specialize (Ha _ (ltac:(eauto))). lia.
Qed.

Lemma Task_create_ok now title description db :
  store_ok db →
  store_ok (Task_create now title description db).2
  ∧ frozen db (Task_create now title description db).2.
Proof.
  intros [Ha Ht He Hj]. split; [split|split]; simpl; try done.
  - intros j Hj'. apply lookup_insert_is_Some' in Hj' as [<-|Hj']; [lia|].
    specialize (Ht j Hj'). lia.
  - intros t0 a0 Hin. apply lookup_insert_is_Some'. eauto.
  - intros j x Hj' _. rewrite lookup_insert_ne; [done|].
    intros <-. specialize (Ht _ (ltac:(eauto))). lia.
Qed.

Lemma Task_agents_add_ok tid ags db :
  store_ok db → is_Some (tasks db !! tid) →
  store_ok (Task_agents_add tid ags db) ∧ frozen db (Task_agents_add tid ags db).
Proof.
  intros [Ha Ht He Hj] Htid. split; [split|split]; simpl; try done.
  intros t0 a0 Hin.
  change ((t0, a0) ∈ task_agents (Task_agents_add tid ags db)) in Hin.
  apply elem_of_Task_agents_add in Hin as [Hin|[-> _]]; eauto.
Qed.

Lemma Task_agents_clear_ok tid db :
  store_ok db →
  store_ok (Task_agents_clear tid db) ∧ frozen db (Task_agents_clear tid db).
Proof.
  intros [Ha Ht He Hj]. split; [split|split]; simpl; try done.
  intros t0 a0 Hin.
  change ((t0, a0) ∈ task_agents (Task_agents_clear tid db)) in Hin.
  apply elem_of_Task_agents_clear in Hin as [Hin _]; eauto.
Qed.

Lemma Execution_create_ok now tid a s db :
  store_ok db →
  store_ok (Execution_create now tid a s db).2
  ∧ frozen db (Execution_create now tid a s db).2.
Proof.
  intros [Ha Ht He Hj]. split; [split|split]; simpl; try done.
  intros j Hj'. apply lookup_insert_is_Some' in Hj' as [<-|Hj']; [lia|].
  specialize (He j Hj'). lia.
Qed.

Lemma Execution_save_ok now i e e' db :
  store_ok db → executions db !! i = Some e →
  store_ok (Execution_save now i e' db) ∧ frozen db (Execution_save now i e' db).
Proof.
  intros [Ha Ht He Hj] Hi. split; [split|split]; simpl; try done.
  intros j. apply is_Some_insert_lt; [apply He; eauto|done].
Qed.

(** The store every step leaves behind. *)
Lemma step_store settings pwd_context st ev :
  store_ok (store st) →
  let st' := Loop.step settings pwd_context st ev in
  store_ok (store st') ∧ frozen (store st) (store st').
Proof.
  intros Hok st'. subst st'.
  assert (Hsame : store_ok (store st) ∧ frozen (store st) (store st))
    by (split; [done|apply frozen_refl]).
  destruct ev as [now [credentials r|n]]; simpl.
  - pose proof (reads_state settings pwd_context now credentials r st)
      as Hread.
    assert (∀ A (m : M A) c,
              (let '(o, st') := m st in (routers.respond c o, st')).2 = (m st).2)
      as Hrun by (intros A m c; by destruct (m st)).
    destruct r; try (rewrite Hread; exact Hsame);
      unfold Loop.serve; rewrite Hrun;
      unfold routers.create_agent, routers.update_agent, routers.delete_agent,
        routers.create_task, routers.update_task, routers.delete_task,
        routers.create_execution;
      rewrite protected_state;
      destruct (get_current_user settings now credentials st).1;
      try exact Hsame.
    + (* create_agent *)
      unfold AgentService.create_agent, bind, create, ret.
      exact (Agent_create_ok now (AgentCreate.name d)
               (AgentCreate.description d) (store st) Hok).
    + (* update_agent *)
      unfold AgentService.update_agent, AgentService.get_agent_by_id, bind,
        query, exec, ret.
      destruct (Agent_filter_first (store st) agent_id) as [a0|] eqn:E;
        [|exact Hsame].
      apply Agent_filter_first_Some in E as [E1 E2].
      case_bool_decide; [|exact Hsame]. simpl. by eapply Agent_save_ok.
    + (* delete_agent *)
      unfold AgentService.delete_agent, AgentService.get_agent_by_id, bind,
        query, exec, ret.
      destruct (Agent_filter_first (store st) agent_id) as [a0|] eqn:E;
        [|exact Hsame].
      apply Agent_filter_first_Some in E as [E1 E2].
      simpl. by eapply Agent_save_ok.
    + (* create_task *)
      destruct (TaskCreate.validate d); [|exact Hsame].
      unfold TaskService.create_task, bind.
      rewrite verify_agents_exist_eq. cbn [fst snd].
      case_bool_decide; cbn [negb]; [|exact Hsame].
      unfold create, query, exec, ret.
      destruct (Task_create now (TaskCreate.title d)
                  (TaskCreate.description d) (store st)) as [i db1] eqn:E.
      cbn [fst snd store].
      destruct (Task_create_ok now (TaskCreate.title d)
                  (TaskCreate.description d) (store st) Hok) as [Hok1 Hf1].
      rewrite E in Hok1, Hf1. simpl in Hok1, Hf1.
      destruct (Task_agents_add_ok i
                  (Agent_filter_in db1 (TaskCreate.supported_agent_ids d))
                  db1 Hok1) as [Hok2 Hf2].
      { inversion E; subst. simpl. rewrite lookup_insert_eq. eauto. }
      split; [done|]. by eapply frozen_trans.
    + (* update_task *)
      unfold TaskService.update_task, TaskService.get_task_by_id, bind, query.
      destruct (Task_filter_first (store st) task_id) as [t|] eqn:E;
        [|exact Hsame].
      apply Task_filter_first_Some in E as [E1 E2]. cbn [ret fst snd].
      assert (Htail : ∀ db1, store_ok db1 → frozen (store st) db1 →
                tasks db1 = tasks (store st) →
                store_ok (if bool_decide (is_Some (TaskUpdate.title d)
                                ∨ is_Some (TaskUpdate.description d)
                                ∨ is_Some (TaskUpdate.status d))
                          then Task_save now task_id
                                 (TaskService.update_from_dict t d) db1
                          else db1)
                ∧ frozen (store st)
                    (if bool_decide (is_Some (TaskUpdate.title d)
                                ∨ is_Some (TaskUpdate.description d)
                                ∨ is_Some (TaskUpdate.status d))
                     then Task_save now task_id
                            (TaskService.update_from_dict t d) db1
                     else db1)).
      { intros db1 Hok1 Hf1 Ht1. case_bool_decide; [|done].
        destruct (Task_save_ok now task_id t
                    (TaskService.update_from_dict t d) db1 Hok1)
          as [Hok2 Hf2]; [by rewrite Ht1|done|].
        split; [done|]. by eapply frozen_trans. }
      destruct (TaskUpdate.supported_agent_ids d) as [ids|].
      * rewrite verify_agents_exist_eq. cbn [fst snd].
        destruct (bool_decide (size (Agent_filter_in_live (store st) ids)
                               = length ids));
          cbn [negb]; [|exact Hsame].
        unfold exec, ret, query. cbn [fst snd store loop].
        destruct (Task_agents_clear_ok task_id (store st) Hok) as [Hokc Hfc].
        destruct (Task_agents_add_ok task_id
                    (Agent_filter_in (Task_agents_clear task_id (store st)) ids)
                    (Task_agents_clear task_id (store st)) Hokc)
          as [Hoka Hfa]; [simpl; eauto|].
        specialize (Htail _ Hoka (frozen_trans _ _ _ Hfc Hfa) eq_refl).
        destruct (bool_decide (is_Some (TaskUpdate.title d) ∨ _));
          exact Htail.
      * unfold exec, ret, query. cbn [fst snd store loop].
        specialize (Htail _ Hok (frozen_refl _) eq_refl).
        destruct (bool_decide (is_Some (TaskUpdate.title d) ∨ _));
          exact Htail.
    + (* delete_task *)
      unfold TaskService.delete_task, TaskService.get_task_by_id, bind,
        query, exec, ret.
      destruct (Task_filter_first (store st) task_id) as [t|] eqn:E;
        [|exact Hsame].
      apply Task_filter_first_Some in E as [E1 E2].
      simpl. by eapply Task_save_ok.
    + (* create_execution *)
      destruct (create_execution_cases now d st) as [Heq|Heq];
        simpl in Heq; rewrite Heq; [exact Hsame|].
      simpl. by apply Execution_create_ok.
  - unfold Loop.resume.
    destruct (loop st !! n) as [c|]; [|exact Hsame].
    case_bool_decide; [|exact Hsame].
    destruct (executions (store st) !! execution_id c) as [e|] eqn:He.
    + erewrite _simulate_execution_Some by done.
      exact (Execution_save_ok now (execution_id c) e (completed now e)
               (store st) Hok He).
    + rewrite _simulate_execution_None by done. exact Hsame.
Qed.

Lemma run_store settings pwd_context trace st :
  store_ok (store st) →
  store_ok (store (Loop.run settings pwd_context trace st))
  ∧ frozen (store st) (store (Loop.run settings pwd_context trace st)).
Proof.
  revert st. induction trace as [|ev trace IH]; intros st Hok.
  - split; [done|apply frozen_refl].
  - simpl. destruct (step_store settings pwd_context st ev Hok) as [Hok1 Hf1].
    destruct (IH _ Hok1) as [Hok2 Hf2]. split; [done|].
    by eapply frozen_trans.
Qed.

(** X19.  Keys and junction rows stay sound: on a store whose
    primary-key counters are above its keys and whose junction rows
    refer to stored tasks, the same holds after any sequence of
    requests and coroutine resumptions, so a generated key never falls
    on a stored row and a new task never inherits junction rows. *)
Theorem store_stays_ok (settings : Settings) (pwd_context : CryptContext)
    (trace : list (Z * Loop.event)) (st : State) :
  store_ok (store st) →
  store_ok (store (Loop.run settings pwd_context trace st)).
Proof. intros Hok. by apply run_store. Qed.

(** X20.  A request that finds the row soft-deleted cannot edit or
    revive it: on a soft-deleted agent, [update_agent] (whatever the
    request sets) and [delete_agent] raise 404 and leave the state
    untouched, and no execution with that agent is created; likewise
    [update_task] and [delete_task] on a soft-deleted task, and no
    execution of that task is created. *)
Theorem soft_deleted_rejects_writes (now i : Z) (st : State) :
  (agent_soft_deleted (store st) i →
     (∀ d, AgentService.update_agent now i d st
           = (Raise (HTTPException 404
                       ("Agent with id " +:+ str i +:+ " not found") []), st))
     ∧ AgentService.delete_agent now i st
       = (Raise (HTTPException 404
                   ("Agent with id " +:+ str i +:+ " not found") []), st)
     ∧ ∀ tid, let r := ExecutionService.create_execution now
                         {| ExecutionCreate.task_id := tid;
                            ExecutionCreate.agent_id := i |} st in
              routers.code (routers.respond 201 r.1) = 404%Z ∧ r.2 = st)
  ∧ (task_soft_deleted (store st) i →
     (∀ d, TaskService.update_task now i d st
           = (Raise (HTTPException 404
                       ("Task with id " +:+ str i +:+ " not found") []), st))
     ∧ TaskService.delete_task now i st
       = (Raise (HTTPException 404
                   ("Task with id " +:+ str i +:+ " not found") []), st)
     ∧ ∀ a, let r := ExecutionService.create_execution now
                       {| ExecutionCreate.task_id := i;
                          ExecutionCreate.agent_id := a |} st in
            routers.code (routers.respond 201 r.1) = 404%Z ∧ r.2 = st).
Proof.
  split; intros Hdel.
  - split; [|split].
    + intros d. unfold AgentService.update_agent, bind.
      by rewrite get_agent_by_id_soft_deleted.
    + by apply delete_agent_soft_deleted.
    + intros tid r. subst r.
      apply soft_deleted_not_alive_agent in Hdel.
      destruct (task_alive_dec (store st) tid) as [Ht|Ht].
      * by rewrite create_execution_no_agent.
      * by rewrite create_execution_no_task.
  - split; [|split].
    + intros d. unfold TaskService.update_task, bind.
      by rewrite get_task_by_id_soft_deleted.
    + by apply delete_task_soft_deleted.
    + intros a r. subst r.
      apply soft_deleted_not_alive_task in Hdel.
      by rewrite create_execution_no_task.
Qed.

(* ===================================================================== *)
(** ** Credentials *)
(* ===================================================================== *)

(** X21.  [POST /login] answers 200 with a token exactly when the
    username is stored, active and not soft-deleted and the password
    verifies against the stored hash; every other request gets the one
    404 ["Incorrect username or password"], and the state is never
    changed. *)
Theorem login_200_iff (settings : Settings) (pwd_context : CryptContext)
    (now : Z) (d : LoginRequest.t) (st : State) :
  let r := routers.login settings pwd_context now d st in
  let granted :=
    ∃ user, users (store st) !! LoginRequest.username d = Some user
            ∧ User.is_active user = true ∧ User.deleted_at user = None
            ∧ verify pwd_context (LoginRequest.password d)
                (User.hashed_password user) = true in
  r.2 = st
  ∧ (granted →
     r.1 = Return (AuthService.create_access_token settings now
                     {[ "sub" := jwt.Str (LoginRequest.username d) ]}
                     (Some (60 * ACCESS_TOKEN_EXPIRE_MINUTES settings)%Z)))
  ∧ (¬ granted →
     r.1 = Raise (HTTPException 404 "Incorrect username or password" []))
  ∧ (routers.code (routers.respond 200 r.1) = 200%Z ↔ granted).
Proof.
  intros r granted. subst r.
  unfold routers.login, AuthService.authenticate_user, bind, query, ret, raise.
  cbn [fst snd]. unfold User_filter_first.
  destruct (users (store st) !! LoginRequest.username d) as [user|] eqn:Hu.
  2: { assert (¬ granted) by (intros (u & ? & _); done).
       repeat split; try done; tauto. }
  destruct (User.deleted_at user) eqn:Hd.
  { assert (¬ granted) by (intros (u & ? & _ & ? & _); congruence).
    repeat split; try done; tauto. }
  destruct (User.is_active user) eqn:Hact.
  2: { assert (¬ granted) by (intros (u & ? & ? & _); congruence).
       repeat split; try done; tauto. }
  destruct (verify pwd_context (LoginRequest.password d)
              (User.hashed_password user)) eqn:Hpw; cbn [negb fst snd].
  - assert granted by (exists user; done).
    repeat split; try done; tauto.
  - assert (¬ granted) by (intros (u & ? & _ & _ & ?); congruence).
    repeat split; try done; tauto.
Qed.

(** X22.  The gate lets nobody through it should not: when
    [get_current_user] returns a user, the request carried a token that
    [verify_token] resolves to that user's username, and the user is
    stored under it, active and not soft-deleted at this very moment;
    so a token stops working as soon as its user is deactivated or
    soft-deleted. *)
Theorem gate_returns_live_user (settings : Settings) (now : Z)
    (credentials : option jwt.token) (st st' : State)
    (username : string) (user : User.t) :
  get_current_user settings now credentials st
    = (Return (username, user), st') →
  st' = st
  ∧ (∃ token, credentials = Some token
              ∧ AuthService.verify_token settings now token st
                = (Return (jwt.Str username), st))
  ∧ users (store st) !! username = Some user
  ∧ User.is_active user = true
  ∧ User.deleted_at user = None.
Proof.
  intros H.
  pose proof (readonly_get_current_user settings now credentials st) as Hst.
  rewrite H in Hst. simpl in Hst. subst st'. split; [done|].
  destruct credentials as [token|]; [|done].
  unfold get_current_user, try_except, bind, query, raise, ret in H.
  pose proof (verify_token_state settings now token st) as Hv.
  destruct (AuthService.verify_token settings now token st)
    as [[subject|e] st1] eqn:E; simpl in Hv; subst st1.
  2: { by destruct e. }
  cbn [fst snd] in H. unfold User_filter_first in H.
  destruct subject as [s|n]; [|done].
  destruct (users (store st) !! s) as [u|] eqn:Hu; [|done].
  destruct (User.deleted_at u) eqn:Hd; [done|].
  destruct (User.is_active u) eqn:Hact; [|done].
  inversion H; subst. eauto 10.
Qed.

(** X23.  The lifetime of a token: [create_access_token] stamps the
    token with [now + expires_delta] when a non-zero delta is given and
    with [now + ACCESS_TOKEN_EXPIRE_MINUTES] minutes otherwise, a zero
    delta counting as none; the stamp replaces any ["exp"] the data
    carried and every other claim of the data is kept. *)
Theorem create_access_token_exp (settings : Settings) (now : Z)
    (data : gmap string jwt.claim) (delta : option Z) :
  let token := AuthService.create_access_token settings now data delta in
  let default := (now + 60 * ACCESS_TOKEN_EXPIRE_MINUTES settings)%Z in
  (∀ d, delta = Some d → d ≠ 0%Z → exp_of token = Some (now + d)%Z)
  ∧ (delta = None ∨ delta = Some 0%Z → exp_of token = Some default)
  ∧ AuthService.create_access_token settings now data (Some 0%Z)
    = AuthService.create_access_token settings now data None
  ∧ ∃ payload,
      token = jwt.Signed (ALGORITHM settings) (SECRET_KEY settings) payload
      ∧ ∀ k, k ≠ "exp" → payload !! k = data !! k.
Proof.
  intros token default. subst token default.
  unfold AuthService.create_access_token, jwt.encode, exp_of.
  split; [|split; [|split; [done|]]].
  - intros d -> Hd. rewrite lookup_insert_eq.
    by rewrite bool_decide_eq_true_2.
  - intros [->| ->]; by rewrite lookup_insert_eq.
  - eexists. split; [done|]. intros k Hk. by rewrite lookup_insert_ne.
Qed.

(** X24.  What [verify_token] accepts: it returns a subject only for a
    token that parses, is signed with [SECRET_KEY] under [ALGORITHM],
    carries that subject as a string under ["sub"] and, if it carries
    an expiration instant, has not passed it; whatever the token, the
    state is unchanged and a failure is the 401 [HTTPException]. *)
Theorem verify_token_accepts (settings : Settings) (now : Z)
    (token : jwt.token) (st : State) :
  let r := AuthService.verify_token settings now token st in
  r.2 = st
  ∧ (∀ subject, r.1 = Return subject →
       ∃ payload s,
         token = jwt.Signed (ALGORITHM settings) (SECRET_KEY settings) payload
         ∧ payload !! "sub" = Some (jwt.Str s) ∧ subject = jwt.Str s
         ∧ ∀ exp, exp_of token = Some exp → (now ≤ exp)%Z)
  ∧ (∀ e, r.1 = Raise e →
       ∃ detail, e = HTTPException 401 detail [("WWW-Authenticate", "Bearer")]).
Proof.
  intros r. subst r. split; [apply verify_token_state|]. split.
  - intros subject.
    unfold AuthService.verify_token, try_except, bind, lift, raise, ret.
    destruct token as [raw|alg key payload]; [done|].
    unfold jwt.decode, exp_of.
    case_bool_decide as Halg; [done|].
    case_bool_decide as Hkey; [done|].
    assert (alg = ALGORITHM settings) as ->.
    { destruct (decide (alg ∈ [ALGORITHM settings])) as [Hin|]; [|done].
      by apply list_elem_of_singleton in Hin. }
    assert (key = SECRET_KEY settings) as ->.
    { by destruct (decide (key = SECRET_KEY settings)). }
    destruct (payload !! "exp") as [[s|exp]|] eqn:Hexp; [done| |].
    + case_bool_decide as Hnow; [done|].
      destruct (payload !! "sub") as [[s|n]|] eqn:Hsub; cbn [fst snd];
        rewrite ?Hsub; try done.
      intros [= <-]. exists payload, s. repeat split; try done.
      intros exp' [= <-]. lia.
    + destruct (payload !! "sub") as [[s|n]|] eqn:Hsub; cbn [fst snd];
        rewrite ?Hsub; try done.
      intros [= <-]. exists payload, s. repeat split; done.
  - intros e He.
    destruct (AuthService.verify_token settings now token st)
      as [o st1] eqn:E. simpl in He. subst o.
    apply verify_token_Raise in E as [_ [d ->]]. by exists d.
Qed.

(* ===================================================================== *)
(** ** The rate limiter *)
(* ===================================================================== *)

Lemma record_of_set_record self ip l ip' :
  RateLimitMiddleware.record_of (RateLimitMiddleware.set_record self ip l) ip'
  = if decide (ip = ip') then l else RateLimitMiddleware.record_of self ip'.
Proof.
  unfold RateLimitMiddleware.record_of, RateLimitMiddleware.set_record.
  cbn [RateLimitMiddleware.clients].
  destruct (decide (ip = ip')) as [->|Hne].
  - by rewrite lookup_insert_eq.
  - by rewrite lookup_insert_ne.
Qed.

Lemma dispatch_docs {R} self current_time request (call_next : _ → R) :
  RateLimitMiddleware.path request ∈ ["/docs"; "/redoc"; "/openapi.json"] →
  RateLimitMiddleware.dispatch self current_time request call_next
  = (Return (call_next request), self).
Proof.
  intros H. unfold RateLimitMiddleware.dispatch.
  by rewrite bool_decide_eq_true_2.
Qed.

Lemma dispatch_limited {R} self current_time request (call_next : _ → R) :
  RateLimitMiddleware.path request ∉ ["/docs"; "/redoc"; "/openapi.json"] →
  let ip := RateLimitMiddleware.client_host request in
  let pruned :=
    List.filter (RateLimitMiddleware.in_window self current_time)
      (RateLimitMiddleware.record_of self ip) in
  RateLimitMiddleware.dispatch self current_time request call_next
  = if bool_decide (RateLimitMiddleware.calls_limit self
                    ≤ Z.of_nat (length pruned))%Z
    then (Raise (HTTPException 429
                   ("Rate limit exceeded. Maximum "
                    +:+ str (RateLimitMiddleware.calls_limit self)
                    +:+ " requests per "
                    +:+ str (RateLimitMiddleware.time_window self)
                    +:+ " seconds.") []),
          RateLimitMiddleware.set_record self ip pruned)
    else (Return (call_next request),
          RateLimitMiddleware.set_record
            (RateLimitMiddleware.set_record self ip pruned) ip
            (pruned ++ [current_time])).
Proof.
  intros H ip pruned. unfold RateLimitMiddleware.dispatch.
  rewrite bool_decide_eq_false_2 by done. cbv zeta.
  fold ip. fold pruned. rewrite record_of_set_record.
  destruct (decide (ip = ip)); [|done]. done.
Qed.

Lemma dispatch_config {R} self current_time request (call_next : _ → R) :
  let self' :=
    (RateLimitMiddleware.dispatch self current_time request call_next).2 in
  RateLimitMiddleware.calls_limit self' = RateLimitMiddleware.calls_limit self
  ∧ RateLimitMiddleware.time_window self' = RateLimitMiddleware.time_window self.
Proof.
  intros self'. subst self'.
  destruct (decide (RateLimitMiddleware.path request
                    ∈ ["/docs"; "/redoc"; "/openapi.json"])) as [Hd|Hd].
  - by rewrite dispatch_docs.
  - rewrite dispatch_limited by done. by case_bool_decide.
Qed.

Lemma dispatch_bound {R} self current_time request (call_next : _ → R) :
  (0 ≤ RateLimitMiddleware.calls_limit self)%Z →
  (∀ ip, (Z.of_nat (length (RateLimitMiddleware.record_of self ip))
          ≤ RateLimitMiddleware.calls_limit self)%Z) →
  ∀ ip, (Z.of_nat (length (RateLimitMiddleware.record_of
            (RateLimitMiddleware.dispatch self current_time request
               call_next).2 ip))
         ≤ RateLimitMiddleware.calls_limit self)%Z.
Proof.
  intros Hlim Hall ip.
  destruct (decide (RateLimitMiddleware.path request
                    ∈ ["/docs"; "/redoc"; "/openapi.json"])) as [Hd|Hd].
  - rewrite dispatch_docs by done. apply Hall.
  - rewrite dispatch_limited by done.
    pose proof (List.filter_length_le
                  (RateLimitMiddleware.in_window self current_time)
                  (RateLimitMiddleware.record_of self
                     (RateLimitMiddleware.client_host request))) as Hle.
    specialize (Hall (RateLimitMiddleware.client_host request)) as Hc.
    case_bool_decide; cbn [snd]; rewrite !record_of_set_record;
      destruct (decide (RateLimitMiddleware.client_host request = ip));
      try apply Hall; rewrite ?length_app; simpl; lia.
Qed.

(** X25.  The limiter never holds more than the limit: starting from
    [__init__] with a non-negative [calls_limit], after any sequence of
    requests at any clock readings, no client has more than
    [calls_limit] timestamps on record. *)
Theorem rate_limiter_record_bounded (calls_limit time_window : Z)
    (requests : list (PrimFloat.float * RateLimitMiddleware.Request))
    (ip : string) :
  (0 ≤ calls_limit)%Z →
  (Z.of_nat (length (RateLimitMiddleware.record_of
      (RateLimitMiddleware.dispatch_all
         (RateLimitMiddleware.__init__ calls_limit time_window) requests) ip))
   ≤ calls_limit)%Z.
Proof.
  intros Hlim.
  assert (∀ self,
    RateLimitMiddleware.calls_limit self = calls_limit →
    (∀ ip, (Z.of_nat (length (RateLimitMiddleware.record_of self ip))
            ≤ calls_limit)%Z) →
    ∀ ip, (Z.of_nat (length (RateLimitMiddleware.record_of
              (RateLimitMiddleware.dispatch_all self requests) ip))
           ≤ calls_limit)%Z) as Hgen.
  { induction requests as [|[t rq] requests IH]; intros self Hc Hall; [done|].
    simpl. apply IH.
    - rewrite <- Hc. apply dispatch_config.
    - rewrite <- Hc. apply dispatch_bound; rewrite Hc; done. }
  apply Hgen; [done|]. intros ip'.
  unfold RateLimitMiddleware.record_of. simpl. rewrite lookup_empty. simpl. lia.
Qed.

(** X26.  How [dispatch] decides, off the documentation paths.  A
    timestamp [t] of the client's record is kept when the float
    [current_time - t], read as the number it denotes, is below the
    window: a finite float [±m·2^e] is compared exactly with the
    integer, -inf is below, +inf and NaN are not.  The 429 exception is
    raised exactly when at least [calls_limit] timestamps are kept, and
    then the record is the kept ones, in their order, and [call_next]
    is not reached; otherwise the record is the kept ones followed by
    the current time, and the answer of [call_next] is returned. *)
Theorem dispatch_decision {R} (self : RateLimitMiddleware.t)
    (current_time : PrimFloat.float) (request : RateLimitMiddleware.Request)
    (call_next : RateLimitMiddleware.Request → R) :
  RateLimitMiddleware.path request ∉ ["/docs"; "/redoc"; "/openapi.json"] →
  let ip := RateLimitMiddleware.client_host request in
  let window := RateLimitMiddleware.time_window self in
  let below (age : PrimFloat.float) : bool :=
    match FloatOps.Prim2SF age with
    | SpecFloat.S754_nan => false
    | SpecFloat.S754_infinity negative => negative
    | SpecFloat.S754_zero _ => bool_decide (0 < window)%Z
    | SpecFloat.S754_finite negative m e =>
        let v := if negative then Z.neg m else Z.pos m in
        if bool_decide (0 ≤ e)%Z then bool_decide (v * 2 ^ e < window)%Z
        else bool_decide (v < window * 2 ^ (- e))%Z
    end in
  let kept :=
    List.filter (λ timestamp, below (PrimFloat.sub current_time timestamp))
      (RateLimitMiddleware.record_of self ip) in
  let r := RateLimitMiddleware.dispatch self current_time request call_next in
  ((RateLimitMiddleware.calls_limit self ≤ Z.of_nat (length kept))%Z →
     r.1 = Raise (HTTPException 429
                    ("Rate limit exceeded. Maximum "
                     +:+ str (RateLimitMiddleware.calls_limit self)
                     +:+ " requests per "
                     +:+ str window +:+ " seconds.") [])
     ∧ RateLimitMiddleware.record_of r.2 ip = kept)
  ∧ ((Z.of_nat (length kept) < RateLimitMiddleware.calls_limit self)%Z →
     r.1 = Return (call_next request)
     ∧ RateLimitMiddleware.record_of r.2 ip = kept ++ [current_time]).
Proof.
  intros Hpath ip window below kept r. subst r.
  rewrite dispatch_limited by done. fold ip.
  change (List.filter (RateLimitMiddleware.in_window self current_time)
            (RateLimitMiddleware.record_of self ip)) with kept.
  split; intros H.
  - rewrite bool_decide_eq_true_2 by done. cbn [fst snd].
    rewrite record_of_set_record. by destruct (decide (ip = ip)).
  - rewrite bool_decide_eq_false_2 by lia. cbn [fst snd].
    rewrite record_of_set_record. by destruct (decide (ip = ip)).
Qed.

(** X27.  What [dispatch] leaves alone: a request for [/docs],
    [/redoc] or [/openapi.json] always reaches [call_next] and changes
    nothing, however many requests the client has made; and a request
    of one client, refused or not, never changes the record of another
    client nor the configured limit and window. *)
Theorem dispatch_bypass_and_isolation {R} (self : RateLimitMiddleware.t)
    (current_time : PrimFloat.float) (request : RateLimitMiddleware.Request)
    (call_next : RateLimitMiddleware.Request → R) :
  let r := RateLimitMiddleware.dispatch self current_time request call_next in
  (RateLimitMiddleware.path request ∈ ["/docs"; "/redoc"; "/openapi.json"] →
     r = (Return (call_next request), self))
  ∧ (∀ ip, ip ≠ RateLimitMiddleware.client_host request →
       RateLimitMiddleware.record_of r.2 ip
       = RateLimitMiddleware.record_of self ip)
  ∧ RateLimitMiddleware.calls_limit r.2 = RateLimitMiddleware.calls_limit self
  ∧ RateLimitMiddleware.time_window r.2 = RateLimitMiddleware.time_window self.
Proof.
  intros r. subst r. split; [apply dispatch_docs|]. split.
  - intros ip Hip.
    destruct (decide (RateLimitMiddleware.path request
                      ∈ ["/docs"; "/redoc"; "/openapi.json"])) as [Hd|Hd].
    + by rewrite dispatch_docs.
    + rewrite dispatch_limited by done.
      case_bool_decide; cbn [snd]; rewrite !record_of_set_record;
        by destruct (decide (RateLimitMiddleware.client_host request = ip)).
  - apply dispatch_config.
Qed.

(* ===================================================================== *)
(** ** The further statements on concrete inputs *)
(* ===================================================================== *)

Lemma scenario_store_ok : store_ok scenario.db.
Proof.
  split.
  - intros i Hi. apply elem_of_dom in Hi. unfold scenario.db in Hi.
    cbn [agents] in Hi. rewrite !dom_insert_L, dom_singleton_L in Hi.
    repeat (apply elem_of_union in Hi as [Hi|Hi]);
      apply elem_of_singleton in Hi; subst; simpl; lia.
  - intros i Hi. apply elem_of_dom in Hi. unfold scenario.db in Hi.
    cbn [tasks] in Hi. rewrite !dom_insert_L, dom_singleton_L in Hi.
    repeat (apply elem_of_union in Hi as [Hi|Hi]);
      apply elem_of_singleton in Hi; subst; simpl; lia.
  - intros i [e Hi]. simpl in Hi. by rewrite lookup_empty in Hi.
  - intros t a Hin. simpl in Hin. apply elem_of_singleton in Hin.
    inversion Hin; subst. eexists. reflexivity.
Defined.

Lemma scenario_agent_2 : agent_alive scenario.db 2.
Proof. eexists. split; reflexivity. Defined.

Lemma scenario_initial : initial scenario.st.
Proof. split; reflexivity. Defined.



Lemma fits_T3 : fits 255 "T3".
Proof. unfold fits. simpl. lia. Defined.


Lemma create_agent_then_get_witness :
  (AgentService.create_agent 20
     {| AgentCreate.name := "A4"; AgentCreate.description := "" |}
     scenario.st).1 = Return 4%Z.
Proof.
  refine (proj1 (create_agent_then_get 20
                   {| AgentCreate.name := "A4"; AgentCreate.description := "" |}
                   scenario.st _ _)).
  - unfold fits. simpl. lia.
  - exact (ok_agent_seq _ scenario_store_ok).
Defined.


Lemma delete_agent_marks_row_witness :
  agents (store (AgentService.delete_agent 30 1 scenario.st).2) !! 2%Z
  = agents scenario.db !! 2%Z.
Proof.
  exact (proj1 (proj2 (delete_agent_marks_row 30 1 scenario.st
                         (AgentService.delete_agent 30 1 scenario.st).2
                         eq_refl)) 2%Z ltac:(discriminate)).
Defined.

Lemma scenario_no_junction_3 : ∀ a, (3%Z, a) ∉ task_agents scenario.db.
Proof.
  intros a Hin. simpl in Hin. apply elem_of_singleton in Hin. discriminate.
Defined.

Lemma scenario_agents_1_2 : ∀ i, i ∈ [1; 2]%Z → agent_alive scenario.db i.
Proof.
  intros i Hi. apply elem_of_cons in Hi as [->|Hi]; [exact scenario_agent_1|].
  apply elem_of_cons in Hi as [->|Hi]; [exact scenario_agent_2|].
  by apply elem_of_nil in Hi.
Defined.

Lemma NoDup_1_2 : NoDup [1; 2]%Z.
Proof.
  apply NoDup_cons. split.
  - intros Hin. apply list_elem_of_singleton in Hin. discriminate.
  - apply NoDup_singleton.
Defined.

Lemma create_task_then_read_witness :
  ∃ fetched st',
    TaskService.create_task 20
      {| TaskCreate.title := "T3"; TaskCreate.description := "";
         TaskCreate.supported_agent_ids := [1; 2]%Z |} scenario.st
    = (Return (3%Z, fetched), st')
    ∧ fetched ≡ₚ [1; 2]%Z.
Proof.
  destruct (create_task_then_read 20
              {| TaskCreate.title := "T3"; TaskCreate.description := "";
                 TaskCreate.supported_agent_ids := [1; 2]%Z |} scenario.st
              fits_T3 NoDup_1_2 scenario_agents_1_2 scenario_no_junction_3)
    as (fetched & st' & H1 & H2 & _).
  exists fetched, st'. split; assumption.
Defined.



Lemma delete_task_marks_row_witness :
  task_agents (store (TaskService.delete_task 30 1 scenario.st).2)
  = task_agents scenario.db.
Proof.
  exact (proj1 (proj2 (proj2 (delete_task_marks_row 30 1 scenario.st
                         (TaskService.delete_task 30 1 scenario.st).2
                         eq_refl)))).
Defined.

Lemma delete_then_create_execution_404_witness :
  authorized (store (AgentService.delete_agent 30 1 scenario.st).2) 1 1
  ∧ routers.code
      (routers.respond 201
         (ExecutionService.create_execution 31
            {| ExecutionCreate.task_id := 1; ExecutionCreate.agent_id := 1 |}
            (AgentService.delete_agent 30 1 scenario.st).2).1) = 404%Z.
Proof.
  destruct (delete_then_create_execution_404 30 31 1 1 scenario.st
              (AgentService.delete_agent 30 1 scenario.st).2
              scenario_authorized_1_1 (or_introl eq_refl))
    as (H1 & H2 & _).
  split; assumption.
Defined.

Lemma create_execution_twice_witness :
  let d := {| ExecutionCreate.task_id := 1; ExecutionCreate.agent_id := 1 |} in
  (ExecutionService.create_execution 21 d
     (ExecutionService.create_execution 20 d scenario.st).2).1
  = Return 2%Z.
Proof.
  exact (proj1 (proj2 (create_execution_twice 20 21 1 1 scenario.st
                         scenario_task_1 scenario_agent_1
                         scenario_authorized_1_1
                         (ok_execution_seq _ scenario_store_ok)))).
Defined.

Lemma completion_after_task_delete_witness :
  let d := {| ExecutionCreate.task_id := 1; ExecutionCreate.agent_id := 1 |} in
  Execution.status <$>
    executions
      (store (Loop.resume 40 0
                (TaskService.delete_task 30 1
                   (ExecutionService.create_execution 20 d scenario.st).2).2))
    !! 1%Z
  = Some "completed".
Proof.
  cbv zeta.
  pose proof (proj2 (proj2 (completion_after_task_delete 20 30 40 1 1
                 scenario.st scenario_task_1 scenario_agent_1
                 scenario_authorized_1_1 ltac:(lia)))) as H.
  cbv zeta in H.
  change (length (loop scenario.st)) with 0 in H.
  change (execution_seq (store scenario.st)) with 1%Z in H.
  rewrite H. reflexivity.
Defined.

Lemma executions_running_or_completed_witness :
  ∃ e, executions (store fixtures.later) !! 1%Z = Some e
       ∧ execution_shape e ∧ Execution.status e ≠ "failed".
Proof.
  eexists. split; [reflexivity|].
  destruct (executions_running_or_completed default_settings
              scenario.pwd_context scenario.st scenario.before 1 _
              scenario_initial eq_refl) as (H1 & H2 & _).
  split; assumption.
Defined.

Lemma running_listing_is_pending_witness :
  ∃ l, ExecutionService.get_running_executions fixtures.later
       = (Return l, fixtures.later)
       ∧ (is_Some (l !! 1%Z) ↔
          ∃ c, c ∈ loop fixtures.later ∧ execution_id c = 1%Z).
Proof.
  exact (running_listing_is_pending default_settings scenario.pwd_context
           scenario.st scenario.before 1 scenario_initial).
Defined.

Lemma unauthenticated_request_401_witness :
  ∃ detail,
    Loop.serve default_settings scenario.pwd_context 20 None
      (Loop.DeleteAgent 1) scenario.st
    = ({| routers.code := 401;
          routers.error := Some (detail, [("WWW-Authenticate", "Bearer")]) |},
       scenario.st).
Proof.
  refine (unauthenticated_request_401 default_settings scenario.pwd_context
            20 None (Loop.DeleteAgent 1) scenario.st scenario.st _ eq_refl _).
  intros d. discriminate.
Defined.

Lemma store_stays_ok_witness :
  store_ok
    (store (Loop.run default_settings scenario.pwd_context
              (scenario.before ++ scenario.after) scenario.st)).
Proof.
  exact (store_stays_ok default_settings scenario.pwd_context
           (scenario.before ++ scenario.after) scenario.st scenario_store_ok).
Defined.

Lemma scenario_agent_3_deleted : agent_soft_deleted scenario.db 3.
Proof. eexists. split; [reflexivity|]. by eexists. Defined.

Lemma soft_deleted_rejects_writes_witness :
  AgentService.update_agent 30 3
    {| AgentUpdate.name := Some "A3 again"; AgentUpdate.description := None |}
    scenario.st
  = (Raise (HTTPException 404 "Agent with id 3 not found" []), scenario.st).
Proof.
  exact (proj1 (proj1 (soft_deleted_rejects_writes 30 3 scenario.st)
                  scenario_agent_3_deleted)
           {| AgentUpdate.name := Some "A3 again";
              AgentUpdate.description := None |}).
Defined.

Lemma gate_returns_live_user_witness :
  users scenario.db !! "admin" = Some scenario.admin
  ∧ User.is_active scenario.admin = true.
Proof.
  destruct (gate_returns_live_user default_settings 20 (Some scenario.token)
              scenario.st scenario.st "admin" scenario.admin eq_refl)
    as (_ & _ & H1 & H2 & _).
  split; assumption.
Defined.

Lemma rate_limiter_record_bounded_witness :
  (Z.of_nat (length (RateLimitMiddleware.record_of fixtures.limiter "10.0.0.1"))
   ≤ 2)%Z.
Proof.
  exact (rate_limiter_record_bounded 2 60
           [ (fixtures.second 1, fixtures.api "10.0.0.1");
             (fixtures.second 2, fixtures.api "10.0.0.1") ] "10.0.0.1"
           ltac:(lia)).
Defined.

Lemma fixtures_api_path ip :
  RateLimitMiddleware.path (fixtures.api ip)
  ∉ ["/docs"; "/redoc"; "/openapi.json"].
Proof.
  intros H. simpl in H.
  repeat (apply elem_of_cons in H as [H|H]; [discriminate|]).
  by apply elem_of_nil in H.
Defined.

Lemma dispatch_decision_witness :
  (RateLimitMiddleware.dispatch fixtures.limiter (fixtures.second 3)
     (fixtures.api "10.0.0.1") (λ _, tt)).1
  = Raise (HTTPException 429
             "Rate limit exceeded. Maximum 2 requests per 60 seconds." []).
Proof.
  refine (proj1 (proj1 (dispatch_decision fixtures.limiter (fixtures.second 3)
                          (fixtures.api "10.0.0.1") (λ _, tt)
                          (fixtures_api_path _)) _)).
  vm_compute. discriminate.
Defined.
